(** * DTN simulator: a shallow embedding of the simulation engine

    The development follows the Python sources:
    - [src/dtn_core.py]  : [Packet], [Buffer], [Node];
    - [src/space.py]     : [SpaceScenario]  (satellite relay chain);
    - [src/military.py]  : [MilitaryScenario] (convoy with a jammed relay).

    Python objects are mutated in place; here every method takes the
    object and returns the updated object next to its result.  A [dict]
    is a [gmap] and a failed subscript ([KeyError], [IndexError]) is
    [None] in the [option] monad.  Python's unbounded [int] is [Z], its
    [float] is a binary64 [float]. *)

From Stdlib Require Import ZArith List String Lia.
From Stdlib Require Import Floats.PrimFloat.
From stdpp Require Import base option list gmap strings pretty.

Set Warnings "-inexact-float".

Open Scope string_scope.
Open Scope list_scope.
Open Scope Z_scope.

(* ===================================================================== *)
(** * Part I: the program                                                 *)
(* ===================================================================== *)

(** ** [dtn_core.Packet] *)
Module Packet.

Inductive PacketType := NORMAL.

Record t := mk {
  source      : string;
  destination : string;
  packet_type : PacketType;
  payload     : string;
  packet_id   : string;       (* first 8 characters of a fresh uuid4 *)
  created_at  : float;        (* time.time() when constructed *)
  hops        : list string
}.

(** [Packet(source, destination, packet_type, payload)]: the two
    default factories read the environment (uuid, clock), so their
    values are arguments here; [hops] starts empty. *)
Definition __init__ (source destination : string) (packet_type : PacketType)
    (payload : string) (fresh_id : string) (now : float) : t :=
  mk source destination packet_type payload fresh_id now [].

Definition add_hop (self : t) (node_id : string) : t :=
  mk (source self) (destination self) (packet_type self) (payload self)
     (packet_id self) (created_at self) (hops self ++ [node_id]).

End Packet.

(** ** [dtn_core.Buffer]: a [deque] used first-in first-out,
    appended on the right and popped on the left. *)
Module Buffer.

Record t := mk {
  max_size : Z;
  _queue   : list Packet.t
}.

Definition __init__ (max_size : Z) : t := mk max_size [].

(** The default argument [max_size = 100]. *)
Definition default : t := __init__ 100.

Definition size (self : t) : Z := Z.of_nat (length (_queue self)).

Definition is_empty (self : t) : bool := size self =? 0.

Definition is_full (self : t) : bool := size self >=? max_size self.

Definition enqueue (self : t) (packet : Packet.t) : bool * t :=
  if is_full self then (false, self)
  else (true, mk (max_size self) (_queue self ++ [packet])).

Definition dequeue (self : t) : option Packet.t * t :=
  match _queue self with
  | p :: rest => (Some p, mk (max_size self) rest)
  | [] => (None, self)
  end.

Definition peek (self : t) : option Packet.t :=
  match _queue self with
  | p :: _ => Some p
  | [] => None
  end.

Definition clear (self : t) : Z * t :=
  (size self, mk (max_size self) []).

End Buffer.

(** ** [dtn_core.Node] *)
Module Node.
Section WithWorld.

(** [on_receive] is an arbitrary Python callable run for its effect;
    [World] is whatever that effect acts on. *)
Context {World : Type}.

Record t := mk {
  node_id      : string;
  name         : string;
  buffer       : Buffer.t;
  is_online    : bool;
  _connections : list (string * bool);   (* insertion-ordered dict *)
  on_receive   : option (Packet.t -> World -> World)
}.

(** [Node(node_id, name)] and [Node(node_id, name, buffer)]. *)
Definition __init__ (node_id name : string) (buffer : Buffer.t) : t :=
  mk node_id name buffer true [] None.

Definition with_buffer (self : t) (b : Buffer.t) : t :=
  mk (node_id self) (name self) b (is_online self) (_connections self)
     (on_receive self).

Definition with_connections (self : t) (c : list (string * bool)) : t :=
  mk (node_id self) (name self) (buffer self) (is_online self) c
     (on_receive self).

(** [d[k] = v] on an insertion-ordered dict: an existing key keeps its
    position, a new key goes last. *)
Fixpoint dict_set (d : list (string * bool)) (k : string) (v : bool)
    : list (string * bool) :=
  match d with
  | [] => [(k, v)]
  | (k', v') :: rest =>
      if String.eqb k' k then (k', v) :: rest
      else (k', v') :: dict_set rest k v
  end.

Fixpoint dict_get (d : list (string * bool)) (k : string) : option bool :=
  match d with
  | [] => None
  | (k', v') :: rest => if String.eqb k' k then Some v' else dict_get rest k
  end.

Definition add_connection (self : t) (other_node_id : string)
    (in_range : bool) : t :=
  with_connections self (dict_set (_connections self) other_node_id in_range).

Definition set_in_range (self : t) (other_node_id : string)
    (in_range : bool) : t :=
  match dict_get (_connections self) other_node_id with
  | Some _ =>
      with_connections self
        (dict_set (_connections self) other_node_id in_range)
  | None => self
  end.

Definition is_in_range (self : t) (other_node_id : string) : bool :=
  match dict_get (_connections self) other_node_id with
  | Some b => b
  | None => false
  end.

Definition get_connected_nodes (self : t) : list string :=
  map fst (filter (fun kv => snd kv = true) (_connections self)).

Definition queue_packet (self : t) (packet : Packet.t) : bool * t :=
  if negb (is_online self) then (false, self)
  else
    let '(ok, b) := Buffer.enqueue (buffer self) packet in
    (ok, with_buffer self b).

(** The packet is a shared mutable object: the hop recorded by
    [add_hop] is seen by the caller and by the buffer that stores the
    packet, so the updated packet is returned as well. *)
Definition receive_packet (self : t) (packet : Packet.t) (w : World)
    : bool * t * Packet.t * World :=
  if negb (is_online self) then (false, self, packet, w)
  else
    let packet := Packet.add_hop packet (node_id self) in
    if String.eqb (Packet.destination packet) (node_id self) then
      match on_receive self with
      | Some callback => (true, self, packet, callback packet w)
      | None => (true, self, packet, w)
      end
    else
      let '(ok, self') := queue_packet self packet in
      (ok, self', packet, w).

Definition get_next_packet (self : t) : option Packet.t * t :=
  if negb (is_online self) then (None, self)
  else
    let '(p, b) := Buffer.dequeue (buffer self) in
    (p, with_buffer self b).

Definition peek_next_packet (self : t) : option Packet.t :=
  Buffer.peek (buffer self).

Definition buffer_size (self : t) : Z := Buffer.size (buffer self).

Definition set_online (self : t) (online : bool) : t :=
  mk (node_id self) (name self) (buffer self) online (_connections self)
     (on_receive self).

End WithWorld.
Arguments t : clear implicits.
End Node.

(** ** Loops and subscripts *)

(** [for x in xs: s = body(s, x)], where the body may raise. *)
Fixpoint for_each {S A : Type} (body : S -> A -> option S) (xs : list A) (s : S)
    : option S :=
  match xs with
  | [] => Some s
  | x :: rest => s' ← body s x; for_each body rest s'
  end.

(** [l[i] = x] for a literal index: [IndexError] when out of range. *)
Definition list_set {A : Type} (l : list A) (i : nat) (x : A) : option (list A) :=
  if decide (i < length l)%nat then Some (<[i := x]> l) else None.

(** Remove the element at one position. *)
Definition remove_at {A : Type} (i : nat) (l : list A) : list A :=
  take i l ++ drop (S i) l.

(** ** [space.SpaceScenario] *)
Module SpaceScenario.
Section WithWorld.
Context {World : Type}.

(** [math.cos], which the embedding does not compute. *)
Variable cos : float -> float.

Definition math_pi : float := 0x1.921fb54442d18p+1%float.

(** A running [_animate_transmission] worker, with its arguments. *)
Record Transmission := mk_tx {
  tx_link_idx  : Z;
  tx_source_id : string;
  tx_target_id : string;
  tx_packet    : Packet.t
}.

Record t := mk {
  nodes                 : gmap string (Node.t World);
  link_visible          : list bool;
  _orbit_phase          : float;
  _transmitting_links   : gset Z;
  is_paused             : bool;
  packets_sent          : Z;
  packets_delivered     : Z;
  packets_dropped       : Z;
  blackhole_active      : bool;
  antenna_outage_active : bool;
  workers               : list Transmission
}.

Definition set_nodes (s : t) (x : gmap string (Node.t World)) : t :=
  mk x (link_visible s) (_orbit_phase s) (_transmitting_links s) (is_paused s)
     (packets_sent s) (packets_delivered s) (packets_dropped s)
     (blackhole_active s) (antenna_outage_active s) (workers s).

Definition set_link_visible (s : t) (x : list bool) : t :=
  mk (nodes s) x (_orbit_phase s) (_transmitting_links s) (is_paused s)
     (packets_sent s) (packets_delivered s) (packets_dropped s)
     (blackhole_active s) (antenna_outage_active s) (workers s).

Definition set_orbit_phase (s : t) (x : float) : t :=
  mk (nodes s) (link_visible s) x (_transmitting_links s) (is_paused s)
     (packets_sent s) (packets_delivered s) (packets_dropped s)
     (blackhole_active s) (antenna_outage_active s) (workers s).

Definition set_transmitting_links (s : t) (x : gset Z) : t :=
  mk (nodes s) (link_visible s) (_orbit_phase s) x (is_paused s)
     (packets_sent s) (packets_delivered s) (packets_dropped s)
     (blackhole_active s) (antenna_outage_active s) (workers s).

Definition set_is_paused (s : t) (x : bool) : t :=
  mk (nodes s) (link_visible s) (_orbit_phase s) (_transmitting_links s) x
     (packets_sent s) (packets_delivered s) (packets_dropped s)
     (blackhole_active s) (antenna_outage_active s) (workers s).

Definition set_packets_sent (s : t) (x : Z) : t :=
  mk (nodes s) (link_visible s) (_orbit_phase s) (_transmitting_links s)
     (is_paused s) x (packets_delivered s) (packets_dropped s)
     (blackhole_active s) (antenna_outage_active s) (workers s).

Definition set_packets_delivered (s : t) (x : Z) : t :=
  mk (nodes s) (link_visible s) (_orbit_phase s) (_transmitting_links s)
     (is_paused s) (packets_sent s) x (packets_dropped s)
     (blackhole_active s) (antenna_outage_active s) (workers s).

Definition set_packets_dropped (s : t) (x : Z) : t :=
  mk (nodes s) (link_visible s) (_orbit_phase s) (_transmitting_links s)
     (is_paused s) (packets_sent s) (packets_delivered s) x
     (blackhole_active s) (antenna_outage_active s) (workers s).

Definition set_blackhole_active (s : t) (x : bool) : t :=
  mk (nodes s) (link_visible s) (_orbit_phase s) (_transmitting_links s)
     (is_paused s) (packets_sent s) (packets_delivered s) (packets_dropped s)
     x (antenna_outage_active s) (workers s).

Definition set_antenna_outage_active (s : t) (x : bool) : t :=
  mk (nodes s) (link_visible s) (_orbit_phase s) (_transmitting_links s)
     (is_paused s) (packets_sent s) (packets_delivered s) (packets_dropped s)
     (blackhole_active s) x (workers s).

Definition set_workers (s : t) (x : list Transmission) : t :=
  mk (nodes s) (link_visible s) (_orbit_phase s) (_transmitting_links s)
     (is_paused s) (packets_sent s) (packets_delivered s) (packets_dropped s)
     (blackhole_active s) (antenna_outage_active s) x.

Definition _setup_network : gmap string (Node.t World) :=
  <["MA" := Node.__init__ "MA" "Mars" (Buffer.__init__ 5)]>
  (<["MA-SAT" := Node.__init__ "MA-SAT" "Mars Satellite" (Buffer.__init__ 5)]>
  (<["MO-SAT1" := Node.__init__ "MO-SAT1" "Moon Satellite 1 (L1)" (Buffer.__init__ 5)]>
  (<["MO-SAT2" := Node.__init__ "MO-SAT2" "Moon Satellite 2 (L2)" (Buffer.__init__ 5)]>
  (<["E-SAT" := Node.__init__ "E-SAT" "Earth Satellite" (Buffer.__init__ 5)]>
  (<["E" := Node.__init__ "E" "Earth" (Buffer.__init__ 5)]> ∅))))).

(** The class-level defaults of the reactive fields, then [__init__]. *)
Definition __init__ : t :=
  mk _setup_network [true; false; false; false; false; true] 0%float ∅
     false 0 0 0 false false [].

(** *** The forwarding step *)

(** [_animate_transmission] is a worker.  Its first statement marks the
    link as transmitting; the worker is started before the simulation
    loop runs its next tick, so starting it is part of the call here.
    The animation that follows only drives the display. *)
Definition _animate_transmission (s : t) (link_idx : Z)
    (source_id target_id : string) (packet : Packet.t) : t :=
  let s := set_transmitting_links s ({[link_idx]} ∪ _transmitting_links s) in
  set_workers s (workers s ++ [mk_tx link_idx source_id target_id packet]).

(** The rest of the worker, run when its animation is over. *)
Definition _animate_transmission_resume (s : t) (w : Transmission) : option t :=
  target_node ← nodes s !! tx_target_id w;
  let s :=
    if String.eqb (tx_target_id w) "MO-SAT1" && blackhole_active s then
      set_packets_dropped s (packets_dropped s + 1)
    else if String.eqb (tx_target_id w) "E" then
      set_packets_delivered s (packets_delivered s + 1)
    else
      let '(_, target_node) := Node.queue_packet target_node (tx_packet w) in
      set_nodes s (<[tx_target_id w := target_node]> (nodes s)) in
  Some (set_transmitting_links s (_transmitting_links s ∖ {[tx_link_idx w]})).

(** The body of the loop over [routes]; [continue] returns the state. *)
Definition route_step (s : t) (route : string * Z * string * bool) : option t :=
  let '(source_id, link_idx, target_id, is_visible) := route in
  if negb is_visible || bool_decide (link_idx ∈ _transmitting_links s) then Some s
  else
    source_node ← nodes s !! source_id;
    if Node.buffer_size source_node =? 0 then Some s
    else
      target_node ← nodes s !! target_id;
      if negb (String.eqb target_id "E") && Buffer.is_full (Node.buffer target_node)
      then Some s
      else
        let '(packet, source_node) := Node.get_next_packet source_node in
        let s := set_nodes s (<[source_id := source_node]> (nodes s)) in
        match packet with
        | None => Some s
        | Some packet =>
            Some (_animate_transmission s link_idx source_id target_id packet)
        end.

Definition routes (s : t) : option (list (string * Z * string * bool)) :=
  v0 ← link_visible s !! 0%nat;
  v1 ← link_visible s !! 1%nat;
  v2 ← link_visible s !! 2%nat;
  v3 ← link_visible s !! 3%nat;
  v4 ← link_visible s !! 4%nat;
  v5 ← link_visible s !! 5%nat;
  Some [ ("MA", 0, "MA-SAT", v0);
         ("MA-SAT", 1, "MO-SAT1", v1);
         ("MA-SAT", 2, "MO-SAT2", v2);
         ("MO-SAT1", 3, "E-SAT", v3);
         ("MO-SAT2", 4, "E-SAT", v4);
         ("E-SAT", 5, "E", v5) ].

Definition _process_all_transmissions (s : t) : option t :=
  rs ← routes s;
  for_each route_step rs s.

(** *** Link visibility *)

(** The first half of [_simulation_tick]: advance the phase and assign
    the six entries of [link_visible] in place. *)
Definition update_link_visible (s : t) : option t :=
  let phase := (_orbit_phase s + 0.002)%float in
  let mars_sat_angle := (phase * 1.5)%float in
  let moon_sat1_angle := (phase * 2.0)%float in
  let moon_sat2_angle := (phase * 2.0 + math_pi)%float in
  let earth_sat_angle := (phase * 1.8 + 0.5)%float in
  let lv := link_visible s in
  lv ← list_set lv 0 (0.2 <? cos mars_sat_angle)%float;
  let mars_sat_facing_moon := (0.3 <? cos mars_sat_angle)%float in
  let moon_sat1_facing_mars := (cos moon_sat1_angle <? -0.2)%float in
  lv ← list_set lv 1 (mars_sat_facing_moon && moon_sat1_facing_mars);
  let moon_sat2_facing_mars := (cos moon_sat2_angle <? -0.2)%float in
  lv ← list_set lv 2 (mars_sat_facing_moon && moon_sat2_facing_mars);
  let moon_sat1_facing_earth := (0.3 <? cos moon_sat1_angle)%float in
  let earth_sat_facing_moon := (cos earth_sat_angle <? -0.2)%float in
  lv ← list_set lv 3 (moon_sat1_facing_earth && earth_sat_facing_moon);
  let moon_sat2_facing_earth := (0.3 <? cos moon_sat2_angle)%float in
  lv ← list_set lv 4 (moon_sat2_facing_earth && earth_sat_facing_moon);
  lv ← (if antenna_outage_active s then list_set lv 5 false
        else list_set lv 5 (cos earth_sat_angle <? 0.2)%float);
  Some (set_link_visible (set_orbit_phase s phase) lv).

(** The writes to the [OrbitalView] widget and [_update_display] only
    copy engine state to the display and are left out. *)
Definition _simulation_tick (s : t) : option t :=
  s ← update_link_visible s;
  _process_all_transmissions s.

(** One turn of the loop of [run_simulation]. *)
Definition run_simulation (s : t) : option t :=
  if negb (is_paused s) then _simulation_tick s else Some s.

(** *** Commands *)

Definition action_send_packet (s : t) (fresh_id : string) (now : float)
    : option t :=
  mars_node ← nodes s !! "MA";
  if negb (Buffer.is_full (Node.buffer mars_node)) then
    let packet :=
      Packet.__init__ "MA" "E" Packet.NORMAL
        ("Data-" +:+ pretty (packets_sent s)) fresh_id now in
    let '(ok, mars_node) := Node.queue_packet mars_node packet in
    let s := set_nodes s (<["MA" := mars_node]> (nodes s)) in
    if ok then Some (set_packets_sent s (packets_sent s + 1)) else Some s
  else Some s.

Definition action_toggle_pause (s : t) : t :=
  set_is_paused s (negb (is_paused s)).

(** The flag is flipped first.  Everything after it is inside
    [try ... except Exception: pass]: the lookup of the button, the
    assignment of its label and then [buffer.clear()].  When the lookup
    or the assignment raises ([ui_ok = false]) the rest of the block is
    skipped, [buffer.clear()] included; a missing ["MO-SAT1"] raises
    inside the same block and is swallowed too.  [btn.refresh()] comes
    after the clear and changes nothing here. *)
Definition toggle_blackhole_attack (ui_ok : bool) (s : t) : t :=
  let s := set_blackhole_active s (negb (blackhole_active s)) in
  if ui_ok then
    if blackhole_active s then
      match nodes s !! "MO-SAT1" with
      | Some n =>
          let '(_, b) := Buffer.clear (Node.buffer n) in
          set_nodes s (<["MO-SAT1" := Node.with_buffer n b]> (nodes s))
      | None => s
      end
    else s
  else s.

Definition spam_packet (fresh_id : string) (now : float) : Packet.t :=
  Packet.__init__ "ATTACKER" "SPAM" Packet.NORMAL "spam" fresh_id now.

Definition trigger_resource_exhaustion (s : t)
    (id1 : string) (now1 : float) (id2 : string) (now2 : float) : option t :=
  l1_node ← nodes s !! "MO-SAT1";
  l2_node ← nodes s !! "MO-SAT2";
  let s :=
    if negb (Buffer.is_full (Node.buffer l1_node)) then
      let '(_, l1_node) := Node.queue_packet l1_node (spam_packet id1 now1) in
      set_nodes s (<["MO-SAT1" := l1_node]> (nodes s))
    else s in
  let s :=
    if negb (Buffer.is_full (Node.buffer l2_node)) then
      let '(_, l2_node) := Node.queue_packet l2_node (spam_packet id2 now2) in
      set_nodes s (<["MO-SAT2" := l2_node]> (nodes s))
    else s in
  Some s.

Definition toggle_antenna_outage (s : t) : t :=
  set_antenna_outage_active s (negb (antenna_outage_active s)).

(** *** Runs of the scenario *)

(** What can happen next: a turn of the simulation loop, the end of the
    animation of the [i]-th running worker, or a command. *)
Inductive event :=
| Tick
| Finish (i : nat)
| SendPacket (fresh_id : string) (now : float)
| TogglePause
| ToggleBlackhole (ui_ok : bool)
| ResourceExhaustion (id1 : string) (now1 : float) (id2 : string) (now2 : float)
| ToggleAntennaOutage.

Definition step (s : t) (e : event) : option t :=
  match e with
  | Tick => run_simulation s
  | Finish i =>
      w ← workers s !! i;
      _animate_transmission_resume (set_workers s (remove_at i (workers s))) w
  | SendPacket fresh_id now => action_send_packet s fresh_id now
  | TogglePause => Some (action_toggle_pause s)
  | ToggleBlackhole ui_ok => Some (toggle_blackhole_attack ui_ok s)
  | ResourceExhaustion id1 now1 id2 now2 =>
      trigger_resource_exhaustion s id1 now1 id2 now2
  | ToggleAntennaOutage => Some (toggle_antenna_outage s)
  end.

Definition run (es : list event) (s : t) : option t := for_each step es s.

Inductive reachable : t -> Prop :=
| reachable_init : reachable __init__
| reachable_step s e s' : reachable s -> step s e = Some s' -> reachable s'.

End WithWorld.
Arguments t : clear implicits.
Arguments Transmission : clear implicits.
End SpaceScenario.

(** ** [military.MilitaryScenario] *)
Module MilitaryScenario.
Section WithWorld.
Context {World : Type}.

(** A running animation worker with its arguments:
    [_do_transfer_animation] or [_do_hq_delivery_animation]. *)
Inductive Transfer :=
| TransferAnimation (packet : Packet.t) (from_id to_id : string) (link_index : Z)
| HqDeliveryAnimation (packet : Packet.t).

Record t := mk {
  vehicles              : gmap string (Node.t World);
  _road_frame           : Z;
  _transfer_in_progress : bool;
  _range_states         : gmap string bool;
  _range_timers         : gmap string Z;
  is_paused             : bool;
  v3_online             : bool;
  packets_created       : Z;
  packets_delivered     : Z;
  workers               : list Transfer
}.

Definition set_vehicles (s : t) (x : gmap string (Node.t World)) : t :=
  mk x (_road_frame s) (_transfer_in_progress s) (_range_states s)
     (_range_timers s) (is_paused s) (v3_online s) (packets_created s)
     (packets_delivered s) (workers s).

Definition set_road_frame (s : t) (x : Z) : t :=
  mk (vehicles s) x (_transfer_in_progress s) (_range_states s)
     (_range_timers s) (is_paused s) (v3_online s) (packets_created s)
     (packets_delivered s) (workers s).

Definition set_transfer_in_progress (s : t) (x : bool) : t :=
  mk (vehicles s) (_road_frame s) x (_range_states s)
     (_range_timers s) (is_paused s) (v3_online s) (packets_created s)
     (packets_delivered s) (workers s).

Definition set_range_states (s : t) (x : gmap string bool) : t :=
  mk (vehicles s) (_road_frame s) (_transfer_in_progress s) x
     (_range_timers s) (is_paused s) (v3_online s) (packets_created s)
     (packets_delivered s) (workers s).

Definition set_range_timers (s : t) (x : gmap string Z) : t :=
  mk (vehicles s) (_road_frame s) (_transfer_in_progress s) (_range_states s)
     x (is_paused s) (v3_online s) (packets_created s)
     (packets_delivered s) (workers s).

Definition set_is_paused (s : t) (x : bool) : t :=
  mk (vehicles s) (_road_frame s) (_transfer_in_progress s) (_range_states s)
     (_range_timers s) x (v3_online s) (packets_created s)
     (packets_delivered s) (workers s).

Definition set_v3_online (s : t) (x : bool) : t :=
  mk (vehicles s) (_road_frame s) (_transfer_in_progress s) (_range_states s)
     (_range_timers s) (is_paused s) x (packets_created s)
     (packets_delivered s) (workers s).

Definition set_packets_created (s : t) (x : Z) : t :=
  mk (vehicles s) (_road_frame s) (_transfer_in_progress s) (_range_states s)
     (_range_timers s) (is_paused s) (v3_online s) x
     (packets_delivered s) (workers s).

Definition set_packets_delivered (s : t) (x : Z) : t :=
  mk (vehicles s) (_road_frame s) (_transfer_in_progress s) (_range_states s)
     (_range_timers s) (is_paused s) (v3_online s) (packets_created s)
     x (workers s).

Definition set_workers (s : t) (x : list Transfer) : t :=
  mk (vehicles s) (_road_frame s) (_transfer_in_progress s) (_range_states s)
     (_range_timers s) (is_paused s) (v3_online s) (packets_created s)
     (packets_delivered s) x.

(** Every vehicle gets the default buffer, [Buffer(max_size=100)]. *)
Definition _setup_network : gmap string (Node.t World) :=
  let v1 := Node.__init__ "V1" "Lead Vehicle" Buffer.default in
  let v2 := Node.__init__ "V2" "Cargo Vehicle" Buffer.default in
  let v3 := Node.__init__ "V3" "Comms Vehicle" Buffer.default in
  let hq := Node.__init__ "HQ" "Head Quarter" Buffer.default in
  let v1 := Node.add_connection v1 "V2" true in
  let v2 := Node.add_connection v2 "V1" true in
  let v2 := Node.add_connection v2 "V3" true in
  let v3 := Node.add_connection v3 "V2" true in
  let v3 := Node.add_connection v3 "HQ" false in
  <["V1" := v1]> (<["V2" := v2]> (<["V3" := v3]> (<["HQ" := hq]> ∅))).

Definition __init__ : t :=
  mk _setup_network 0 false
     (<["v1_v2" := true]> (<["v2_v3" := true]> (<["v3_cp" := false]> ∅)))
     (<["v1_v2" := 0]> (<["v2_v3" := 0]> (<["v3_cp" := 0]> ∅)))
     false true 0 0 [].

(** *** Link visibility *)

(** [randint] is the integer that [random.randint(40, 60)] returns on
    this call; Python's global generator is read only when V3 is
    online. *)
Definition _update_range_states (randint : Z) (s : t) : option t :=
  let s := set_range_states s (<["v1_v2" := true]> (_range_states s)) in
  let s :=
    if v3_online s then set_range_states s (<["v2_v3" := true]> (_range_states s))
    else set_range_states s (<["v2_v3" := false]> (_range_states s)) in
  timer ← _range_timers s !! "v3_cp";
  let s := set_range_timers s (<["v3_cp" := timer + 1]> (_range_timers s)) in
  if v3_online s then
    timer ← _range_timers s !! "v3_cp";
    if timer >? randint then
      state ← _range_states s !! "v3_cp";
      let s := set_range_states s (<["v3_cp" := negb state]> (_range_states s)) in
      Some (set_range_timers s (<["v3_cp" := 0]> (_range_timers s)))
    else Some s
  else Some (set_range_states s (<["v3_cp" := false]> (_range_states s))).

(** *** The forwarding step *)

(** The worker is created after the flag is set; its animation and, at
    the end, its effect on the engine come later, in
    [_do_transfer_animation] below. *)
Definition _start_transfer (s : t) (from_id to_id : string) (link_index : Z)
    : option t :=
  from_node ← vehicles s !! from_id;
  let '(packet, from_node) := Node.get_next_packet from_node in
  let s := set_vehicles s (<[from_id := from_node]> (vehicles s)) in
  match packet with
  | None => Some s
  | Some packet =>
      let s := set_transfer_in_progress s true in
      Some (set_workers s
              (workers s ++ [TransferAnimation packet from_id to_id link_index]))
  end.

Definition _start_hq_delivery (s : t) : option t :=
  v3 ← vehicles s !! "V3";
  let '(packet, v3) := Node.get_next_packet v3 in
  let s := set_vehicles s (<["V3" := v3]> (vehicles s)) in
  match packet with
  | None => Some s
  | Some packet =>
      let s := set_transfer_in_progress s true in
      Some (set_workers s (workers s ++ [HqDeliveryAnimation packet]))
  end.

(** Python's [and] does not evaluate its right operand, and so does not
    raise there, when the left one is false. *)
Definition has_packets (s : t) (id : string) : option bool :=
  v ← vehicles s !! id;
  Some (Node.buffer_size v >? 0).

Definition _process_forwarding (s : t) : option t :=
  if _transfer_in_progress s then Some s
  else
    v1_v2 ← _range_states s !! "v1_v2";
    c1 ← (if (v1_v2 : bool) then has_packets s "V1" else Some false);
    if (c1 : bool) then _start_transfer s "V1" "V2" 0
    else
      v2_v3 ← _range_states s !! "v2_v3";
      c2 ← (if v2_v3 && v3_online s then has_packets s "V2" else Some false);
      if (c2 : bool) then _start_transfer s "V2" "V3" 1
      else
        v3_cp ← _range_states s !! "v3_cp";
        c3 ← (if v3_cp && v3_online s then has_packets s "V3" else Some false);
        if (c3 : bool) then _start_hq_delivery s
        else Some s.

(** The end of a worker, after its animation.  The body is inside
    [try ... except Exception: pass ... finally]: when the display
    cannot be reached ([ui_ok = false]) or [to_id] is not a vehicle, the
    exception is swallowed and only the [finally] clause runs. *)
Definition _do_transfer_animation (ui_ok : bool) (s : t)
    (packet : Packet.t) (from_id to_id : string) (link_index : Z) : t :=
  let s :=
    if ui_ok then
      match vehicles s !! to_id with
      | Some to_node =>
          let '(_, to_node) := Node.queue_packet to_node packet in
          set_vehicles s (<[to_id := to_node]> (vehicles s))
      | None => s
      end
    else s in
  set_transfer_in_progress s false.

Definition _do_hq_delivery_animation (ui_ok : bool) (s : t) (packet : Packet.t)
    : t :=
  let s :=
    if ui_ok then set_packets_delivered s (packets_delivered s + 1) else s in
  set_transfer_in_progress s false.

(** [_update_convoy_view] and [_update_display] only copy engine state
    to the display and are left out. *)
Definition _simulation_tick (randint : Z) (s : t) : option t :=
  let s := set_road_frame s (_road_frame s + 1) in
  s ← _update_range_states randint s;
  _process_forwarding s.

(** One turn of the loop of [run_simulation]. *)
Definition run_simulation (randint : Z) (s : t) : option t :=
  if negb (is_paused s) then _simulation_tick randint s else Some s.

(** *** Commands *)

Definition action_send_packet (s : t) (fresh_id : string) (now : float)
    : option t :=
  let packet :=
    Packet.__init__ "V1" "HQ" Packet.NORMAL
      ("Data-" +:+ pretty (packets_created s)) fresh_id now in
  v1 ← vehicles s !! "V1";
  let '(_, v1) := Node.queue_packet v1 packet in
  let s := set_vehicles s (<["V1" := v1]> (vehicles s)) in
  Some (set_packets_created s (packets_created s + 1)).

Definition action_toggle_v3 (s : t) : option t :=
  let s := set_v3_online s (negb (v3_online s)) in
  v3 ← vehicles s !! "V3";
  let s := set_vehicles s
             (<["V3" := Node.set_online v3 (v3_online s)]> (vehicles s)) in
  if v3_online s then Some s
  else
    let s := set_range_states s (<["v2_v3" := false]> (_range_states s)) in
    Some (set_range_states s (<["v3_cp" := false]> (_range_states s))).

Definition action_toggle_pause (s : t) : t :=
  set_is_paused s (negb (is_paused s)).

(** *** Runs of the scenario *)

Inductive event :=
| Tick (randint : Z)
| Finish (i : nat) (ui_ok : bool)
| SendPacket (fresh_id : string) (now : float)
| ToggleV3
| TogglePause.

Definition finish (ui_ok : bool) (s : t) (w : Transfer) : t :=
  match w with
  | TransferAnimation packet from_id to_id link_index =>
      _do_transfer_animation ui_ok s packet from_id to_id link_index
  | HqDeliveryAnimation packet => _do_hq_delivery_animation ui_ok s packet
  end.

Definition step (s : t) (e : event) : option t :=
  match e with
  | Tick randint => run_simulation randint s
  | Finish i ui_ok =>
      w ← workers s !! i;
      Some (finish ui_ok (set_workers s (remove_at i (workers s))) w)
  | SendPacket fresh_id now => action_send_packet s fresh_id now
  | ToggleV3 => action_toggle_v3 s
  | TogglePause => Some (action_toggle_pause s)
  end.

(** [random.randint(40, 60)] returns an integer between 40 and 60. *)
Definition possible (e : event) : Prop :=
  match e with
  | Tick randint => 40 <= randint <= 60
  | _ => True
  end.

Definition run (es : list event) (s : t) : option t := for_each step es s.

Inductive reachable : t -> Prop :=
| reachable_init : reachable __init__
| reachable_step s e s' :
    reachable s -> possible e -> step s e = Some s' -> reachable s'.

End WithWorld.
Arguments t : clear implicits.
End MilitaryScenario.

(** ** Invariants of the scenarios *)
Module SpaceInv.
Section WithWorld.
Context {World : Type}.

Definition node_ids : list string :=
  ["MA"; "MA-SAT"; "MO-SAT1"; "MO-SAT2"; "E-SAT"; "E"].

(** The subscripts of the scenario never fail. *)
Definition well_formed (s : SpaceScenario.t World) : Prop :=
  (forall id, id ∈ node_ids -> is_Some (SpaceScenario.nodes s !! id))
  /\ length (SpaceScenario.link_visible s) = 6%nat.

(** The links that running workers are transmitting on. *)
Definition in_flight (s : SpaceScenario.t World) : list Z :=
  SpaceScenario.tx_link_idx <$> SpaceScenario.workers s.

(** No two workers share a link, and [_transmitting_links] is the set
    of links of the running workers. *)
Definition exclusive (s : SpaceScenario.t World) : Prop :=
  NoDup (in_flight s)
  /\ forall i, i ∈ SpaceScenario._transmitting_links s <-> i ∈ in_flight s.

End WithWorld.
End SpaceInv.

Module MilitaryInv.

Record link := mk_link {
  range_key  : string;
  source_id  : string;
  target_id  : string;
  link_index : Z
}.

Section WithWorld.
Context {World : Type}.

Definition vehicle_online (vs : gmap string (Node.t World)) (id : string)
    (online : bool) : Prop :=
  exists v, vs !! id = Some v /\ Node.is_online v = online.

(** The subscripts of the scenario never fail, V1 and V2 are always
    online, and V3 is online exactly when [v3_online] says so. *)
Definition well_formed (s : MilitaryScenario.t World) : Prop :=
  vehicle_online (MilitaryScenario.vehicles s) "V1" true
  /\ vehicle_online (MilitaryScenario.vehicles s) "V2" true
  /\ vehicle_online (MilitaryScenario.vehicles s) "V3" (MilitaryScenario.v3_online s)
  /\ is_Some (MilitaryScenario._range_states s !! "v1_v2")
  /\ is_Some (MilitaryScenario._range_states s !! "v2_v3")
  /\ is_Some (MilitaryScenario._range_states s !! "v3_cp")
  /\ is_Some (MilitaryScenario._range_timers s !! "v3_cp").

(** The flag [_transfer_in_progress] is set exactly while a worker runs,
    and then there is one worker only. *)
Definition serialized (s : MilitaryScenario.t World) : Prop :=
  (MilitaryScenario._transfer_in_progress s = false
   /\ MilitaryScenario.workers s = [])
  \/ (MilitaryScenario._transfer_in_progress s = true
      /\ exists w, MilitaryScenario.workers s = [w]).

(** The three links of the convoy, in the order in which
    [_process_forwarding] tests them and [_setup_network] connects the
    vehicles: the key of the link in [_range_states], its two ends, and
    the index under which its worker shows it as [transmitting_link]. *)
Definition v1_v2 : link := mk_link "v1_v2" "V1" "V2" 0.
Definition v2_v3 : link := mk_link "v2_v3" "V2" "V3" 1.
Definition v3_cp : link := mk_link "v3_cp" "V3" "HQ" 2.

Definition links : list link := [v1_v2; v2_v3; v3_cp].

(** Bundles that reach HQ are counted as delivered and not buffered. *)
Definition final_sink : string := "HQ".

(** The link that a running worker transmits on:
    [_do_transfer_animation] shows [link_index],
    [_do_hq_delivery_animation] shows link 2. *)
Definition worker_link (w : MilitaryScenario.Transfer) : Z :=
  match w with
  | MilitaryScenario.TransferAnimation _ _ _ link_index => link_index
  | MilitaryScenario.HqDeliveryAnimation _ => 2
  end.

(** Eligibility of a link in the words of section 4.4 of the
    specification, to be compared with what [_process_forwarding] tests:
    a link is skipped when it is not visible, when it is already
    transmitting, when its source buffer is empty, or when its
    destination is not the final sink and has a full buffer; it is
    eligible otherwise. *)
Definition spec_eligible (s : MilitaryScenario.t World) (l : link) : bool :=
  bool_decide (MilitaryScenario._range_states s !! range_key l = Some true)
  && negb (bool_decide
             (link_index l ∈ worker_link <$> MilitaryScenario.workers s))
  && match MilitaryScenario.vehicles s !! source_id l with
     | Some v => negb (Node.buffer_size v =? 0)
     | None => false
     end
  && (String.eqb (target_id l) final_sink
      || match MilitaryScenario.vehicles s !! target_id l with
         | Some v => negb (Buffer.is_full (Node.buffer v))
         | None => false
         end).

(** The tie-break of section 4.4: among the eligible links, the first
    in declaration order. *)
Definition spec_selected (s : MilitaryScenario.t World) : option link :=
  head (List.filter (spec_eligible s) links).

End WithWorld.
End MilitaryInv.

(** ** Sequences of calls

    Call sequences on one [Buffer] and on one [Node], used to state
    properties that hold "after any sequence of operations". *)
Module BufferOps.

Inductive op :=
| Enqueue (packet : Packet.t)
| Dequeue
| Clear.

Definition apply (b : Buffer.t) (o : op) : Buffer.t :=
  match o with
  | Enqueue packet => snd (Buffer.enqueue b packet)
  | Dequeue => snd (Buffer.dequeue b)
  | Clear => snd (Buffer.clear b)
  end.

Definition run (ops : list op) (b : Buffer.t) : Buffer.t :=
  fold_left apply ops b.

End BufferOps.

Module NodeOps.
Section WithWorld.
Context {World : Type}.

(** Calls that touch the queue, directly on [node.buffer] or through the
    node, interleaved with link-state and status changes. *)
Inductive op :=
| BufferEnqueue (packet : Packet.t)
| BufferDequeue
| BufferPeek
| QueuePacket (packet : Packet.t)
| GetNextPacket
| PeekNextPacket
| AddConnection (other_node_id : string) (in_range : bool)
| SetInRange (other_node_id : string) (in_range : bool)
| SetOnline (online : bool).

(** What an observer of the calls has seen so far: the packets whose
    enqueue returned [True], and the packets handed out by a dequeue,
    both in call order. *)
Record log := mk_log {
  accepted : list Packet.t;
  returned : list Packet.t
}.

Definition note_enqueue (l : log) (ok : bool) (packet : Packet.t) : log :=
  if ok then mk_log (accepted l ++ [packet]) (returned l) else l.

Definition note_dequeue (l : log) (r : option Packet.t) : log :=
  match r with
  | Some packet => mk_log (accepted l) (returned l ++ [packet])
  | None => l
  end.

Definition apply (st : Node.t World * log) (o : op) : Node.t World * log :=
  let '(n, l) := st in
  match o with
  | BufferEnqueue packet =>
      let '(ok, b) := Buffer.enqueue (Node.buffer n) packet in
      (Node.with_buffer n b, note_enqueue l ok packet)
  | BufferDequeue =>
      let '(r, b) := Buffer.dequeue (Node.buffer n) in
      (Node.with_buffer n b, note_dequeue l r)
  | BufferPeek => (n, l)
  | QueuePacket packet =>
      let '(ok, n') := Node.queue_packet n packet in
      (n', note_enqueue l ok packet)
  | GetNextPacket =>
      let '(r, n') := Node.get_next_packet n in
      (n', note_dequeue l r)
  | PeekNextPacket => (n, l)
  | AddConnection other in_range => (Node.add_connection n other in_range, l)
  | SetInRange other in_range => (Node.set_in_range n other in_range, l)
  | SetOnline online => (Node.set_online n online, l)
  end.

Definition run (ops : list op) (n : Node.t World) : Node.t World * log :=
  fold_left apply ops (n, mk_log [] []).

End WithWorld.
Arguments op : clear implicits.
End NodeOps.

(** Concrete packets and nodes used in the examples. *)
Definition pkt (source destination packet_id : string) : Packet.t :=
  Packet.__init__ source destination Packet.NORMAL "data" packet_id 0%float.

Definition relay (max_size : Z) : Node.t nat :=
  Node.__init__ "B" "Relay" (Buffer.__init__ max_size).

Definition counting_sink : Node.t nat :=
  Node.mk "B" "Sink" (Buffer.__init__ 5) true [] (Some (fun _ n => S n)).

(** A stand-in for [math.cos] in the examples: 1 below 0.007, -1 from
    there on, so that Mars faces its satellite during the first ticks
    and the first moon satellite turns towards Mars at the second. *)
Definition cos_demo (x : float) : float :=
  if (x <? 0.007)%float then 1%float else (-1)%float.

(** Two bundles sent from Mars; the first one reaches the Mars
    satellite, then both links out of Mars and of its satellite are
    busy.  With [attack] the blackhole is switched on before the second
    tick. *)
Definition space_demo_events (attack : bool) : list SpaceScenario.event :=
  [SpaceScenario.SendPacket "a" 0%float; SpaceScenario.SendPacket "b" 0%float;
   SpaceScenario.Tick; SpaceScenario.Finish 0]
  ++ (if attack then [SpaceScenario.ToggleBlackhole true] else [])
  ++ [SpaceScenario.Tick].

Definition space_demo (attack : bool) : SpaceScenario.t unit :=
  default SpaceScenario.__init__
    (SpaceScenario.run cos_demo (space_demo_events attack) SpaceScenario.__init__).

(** Two spam packets buffered at the first moon satellite. *)
Definition space_spammed : SpaceScenario.t unit :=
  default SpaceScenario.__init__
    (SpaceScenario.run cos_demo
       [SpaceScenario.ResourceExhaustion "s1" 0%float "s2" 0%float;
        SpaceScenario.ResourceExhaustion "s3" 0%float "s4" 0%float]
       SpaceScenario.__init__).

(** Mars with a full buffer: five bundles sent while paused. *)
Definition space_mars_full : SpaceScenario.t unit :=
  default SpaceScenario.__init__
    (SpaceScenario.run cos_demo
       (SpaceScenario.TogglePause
        :: map (fun k => SpaceScenario.SendPacket (pretty (Z.of_nat k)) 0%float)
               (seq 0 5))
       SpaceScenario.__init__).

(** The convoy with V3 jammed: each bundle sent from V1 is forwarded to
    V2 and stays there.  After 100 bundles the buffer of V2 is full, and
    one more bundle waits at V1. *)
Definition convoy_cycle (k : nat) : list MilitaryScenario.event :=
  [MilitaryScenario.SendPacket (pretty (Z.of_nat k)) 0%float;
   MilitaryScenario.Tick 50;
   MilitaryScenario.Finish 0 true].

Definition convoy_jam_events : list MilitaryScenario.event :=
  MilitaryScenario.ToggleV3
  :: concat (map convoy_cycle (seq 0 100))
  ++ [MilitaryScenario.SendPacket "late" 0%float].

Definition convoy_jammed : MilitaryScenario.t unit :=
  default MilitaryScenario.__init__
    (MilitaryScenario.run convoy_jam_events MilitaryScenario.__init__).

(** The same convoy with the jamming of V3 switched off again: V3 is
    online and empty, V2 is still full and V1 still holds one bundle. *)
Definition convoy_unjammed_events : list MilitaryScenario.event :=
  convoy_jam_events ++ [MilitaryScenario.ToggleV3].

Definition convoy_unjammed : MilitaryScenario.t unit :=
  default MilitaryScenario.__init__
    (MilitaryScenario.run convoy_unjammed_events MilitaryScenario.__init__).

(** The convoy paused, with 100 bundles sent: the buffer of V1 is full. *)
Definition convoy_v1_full_events : list MilitaryScenario.event :=
  MilitaryScenario.TogglePause
  :: map (fun k => MilitaryScenario.SendPacket (pretty (Z.of_nat k)) 0%float)
         (seq 0 100).

Definition convoy_v1_full : MilitaryScenario.t unit :=
  default MilitaryScenario.__init__
    (MilitaryScenario.run convoy_v1_full_events MilitaryScenario.__init__).

(** The convoy after 40 ticks in which the V3-HQ link did not toggle. *)
Definition convoy_tick40 : MilitaryScenario.t unit :=
  default MilitaryScenario.__init__
    (MilitaryScenario.run (repeat (MilitaryScenario.Tick 60) 40)
       MilitaryScenario.__init__).

#[global] Instance possible_dec (e : MilitaryScenario.event) :
  Decision (MilitaryScenario.possible e).
Proof. destruct e; simpl; apply _. Defined.

(* ===================================================================== *)
(** * Part II: properties                                                 *)
(* ===================================================================== *)

(** ** Buffer *)

Lemma is_full_false (b : Buffer.t) :
  Buffer.is_full b = false <-> Buffer.size b < Buffer.max_size b.
Proof.
  unfold Buffer.is_full. destruct (Z.geb_spec (Buffer.size b) (Buffer.max_size b)).
  - split; [discriminate | lia].
  - split; [lia | reflexivity].
Qed.

Lemma enqueue_full (b : Buffer.t) (p : Packet.t) :
  Buffer.is_full b = true -> Buffer.enqueue b p = (false, b).
Proof. intros H. unfold Buffer.enqueue. rewrite H. reflexivity. Qed.

Lemma enqueue_room (b : Buffer.t) (p : Packet.t) :
  Buffer.is_full b = false ->
  Buffer.enqueue b p = (true, Buffer.mk (Buffer.max_size b) (Buffer._queue b ++ [p])).
Proof. intros H. unfold Buffer.enqueue. rewrite H. reflexivity. Qed.

Lemma size_snoc (m : Z) (q : list Packet.t) (p : Packet.t) :
  Buffer.size (Buffer.mk m (q ++ [p])) = Buffer.size (Buffer.mk m q) + 1.
Proof. unfold Buffer.size. simpl. rewrite length_app. simpl. lia. Qed.

(** One call keeps the capacity and the bound. *)
Lemma apply_bounded (b : Buffer.t) (o : BufferOps.op) :
  0 <= Buffer.max_size b ->
  Buffer.size b <= Buffer.max_size b ->
  Buffer.max_size (BufferOps.apply b o) = Buffer.max_size b
  /\ Buffer.size (BufferOps.apply b o) <= Buffer.max_size b.
Proof.
  intros Hm Hb. destruct o as [p| |]; simpl.
  - destruct (Buffer.is_full b) eqn:Hf.
    + rewrite (enqueue_full _ _ Hf). simpl. auto.
    + rewrite (enqueue_room _ _ Hf). simpl. split; [reflexivity|].
      rewrite size_snoc. apply is_full_false in Hf.
      unfold Buffer.size in *. simpl in *. lia.
  - unfold Buffer.dequeue. destruct (Buffer._queue b) as [|p q] eqn:Hq; simpl.
    + auto.
    + split; [reflexivity|]. unfold Buffer.size in *. rewrite Hq in Hb.
      simpl in *. lia.
  - split; [reflexivity|]. unfold Buffer.size. simpl. lia.
Qed.

Lemma run_bounded (ops : list BufferOps.op) (b : Buffer.t) :
  0 <= Buffer.max_size b ->
  Buffer.size b <= Buffer.max_size b ->
  Buffer.max_size (BufferOps.run ops b) = Buffer.max_size b
  /\ Buffer.size (BufferOps.run ops b) <= Buffer.max_size b.
Proof.
  revert b. induction ops as [|o ops IH]; intros b Hm Hb.
  - split; [reflexivity | exact Hb].
  - destruct (apply_bounded b o Hm Hb) as [E1 E2].
    change (BufferOps.run (o :: ops) b)
      with (BufferOps.run ops (BufferOps.apply b o)).
    destruct (IH (BufferOps.apply b o)) as [E3 E4].
    + rewrite E1. exact Hm.
    + rewrite E1. exact E2.
    + rewrite E3, E1 in *. split; [reflexivity | exact E4].
Qed.

(** C1 (as amended): a buffer built with a capacity [max_size >= 0] never
    holds more than [max_size] packets, whatever sequence of enqueue,
    dequeue and clear calls is run on it; and for every buffer [enqueue]
    returns [False] exactly when the buffer is full, then leaving it as it
    was, and otherwise appends the packet and returns [True]. *)
Theorem buffer_capacity_invariant (max_size : Z) (ops : list BufferOps.op)
    (Hcap : 0 <= max_size) :
  Buffer.size (BufferOps.run ops (Buffer.__init__ max_size))
    <= Buffer.max_size (BufferOps.run ops (Buffer.__init__ max_size))
  /\ forall (b : Buffer.t) (p : Packet.t),
       (fst (Buffer.enqueue b p) = false <-> Buffer.is_full b = true)
       /\ (Buffer.is_full b = true -> Buffer.enqueue b p = (false, b))
       /\ (Buffer.is_full b = false ->
           Buffer.enqueue b p
           = (true, Buffer.mk (Buffer.max_size b) (Buffer._queue b ++ [p]))).
Proof.
  split.
  - destruct (run_bounded ops (Buffer.__init__ max_size)) as [E1 E2].
    + exact Hcap.
    + exact Hcap.
    + rewrite E1. exact E2.
  - intros b p. split; [|split].
    + unfold Buffer.enqueue. destruct (Buffer.is_full b); simpl; split; congruence.
    + apply enqueue_full.
    + apply enqueue_room.
Qed.

Lemma buffer_capacity_invariant_witness :
  0 <= 2
  /\ Buffer.size (BufferOps.run
        [BufferOps.Enqueue (pkt "A" "B" "p1"); BufferOps.Enqueue (pkt "A" "B" "p2");
         BufferOps.Enqueue (pkt "A" "B" "p3"); BufferOps.Dequeue]
        (Buffer.__init__ 2)) <= 2.
Proof.
  split; [lia |].
  apply (buffer_capacity_invariant 2
           [BufferOps.Enqueue (pkt "A" "B" "p1"); BufferOps.Enqueue (pkt "A" "B" "p2");
            BufferOps.Enqueue (pkt "A" "B" "p3"); BufferOps.Dequeue]).
  lia.
Defined.

(** Six packets offered to a buffer of capacity 5: the first five are
    accepted, the sixth is refused and the size stays 5. *)
Example sixth_enqueue_refused :
  let b5 := BufferOps.run
              (map (fun k => BufferOps.Enqueue (pkt "A" "B" (pretty (Z.of_nat k))))
                   (seq 0 5))
              (Buffer.__init__ 5) in
  Buffer.size b5 = 5
  /\ Buffer.enqueue b5 (pkt "A" "B" "p6") = (false, b5).
Proof. vm_compute. split; reflexivity. Qed.

(** C1 (as stated) fails for a buffer built with a negative capacity:
    [Buffer(max_size=-1)] is empty, and its size 0 exceeds [max_size]. *)
Lemma negative_capacity_exceeded :
  ~ (Buffer.size (BufferOps.run [] (Buffer.__init__ (-1)))
       <= Buffer.max_size (BufferOps.run [] (Buffer.__init__ (-1)))).
Proof. vm_compute. intros H. apply H. reflexivity. Qed.

(** ** First-in first-out order *)

Section Fifo.
Context {World : Type}.

(** What was in the queue at the start, followed by what was accepted
    since, is what was handed out followed by what is still queued. *)
Definition fifo_balance (q0 : list Packet.t) (st : Node.t World * NodeOps.log) : Prop :=
  q0 ++ NodeOps.accepted (snd st)
  = NodeOps.returned (snd st) ++ Buffer._queue (Node.buffer (fst st)).

Lemma enqueue_balance q0 (n : Node.t World) l (p : Packet.t) :
  fifo_balance q0 (n, l) ->
  fifo_balance q0
    (Node.with_buffer n (snd (Buffer.enqueue (Node.buffer n) p)),
     NodeOps.note_enqueue l (fst (Buffer.enqueue (Node.buffer n) p)) p).
Proof.
  unfold fifo_balance, Buffer.enqueue. simpl. intros H.
  destruct (Buffer.is_full (Node.buffer n)); simpl.
  - exact H.
  - rewrite !app_assoc. rewrite H. reflexivity.
Qed.

Lemma dequeue_balance q0 (n : Node.t World) l :
  fifo_balance q0 (n, l) ->
  fifo_balance q0
    (Node.with_buffer n (snd (Buffer.dequeue (Node.buffer n))),
     NodeOps.note_dequeue l (fst (Buffer.dequeue (Node.buffer n)))).
Proof.
  unfold fifo_balance, Buffer.dequeue. simpl. intros H.
  destruct (Buffer._queue (Node.buffer n)) as [|p q] eqn:Hq; simpl.
  - rewrite Hq. exact H.
  - rewrite H. rewrite <- app_assoc. reflexivity.
Qed.

Lemma dict_get_unchanged_buffer (n : Node.t World) other in_range :
  Node.buffer (Node.set_in_range n other in_range) = Node.buffer n.
Proof.
  unfold Node.set_in_range.
  destruct (Node.dict_get (Node._connections n) other); reflexivity.
Qed.

Lemma apply_balance q0 (st : Node.t World * NodeOps.log) (o : NodeOps.op) :
  fifo_balance q0 st -> fifo_balance q0 (NodeOps.apply st o).
Proof.
  destruct st as [n l]. intros H.
  destruct o as [p| | |p| | |other r|other r|online]; simpl.
  - pose proof (enqueue_balance q0 n l p H) as E.
    destruct (Buffer.enqueue (Node.buffer n) p) as [ok b]. exact E.
  - pose proof (dequeue_balance q0 n l H) as E.
    destruct (Buffer.dequeue (Node.buffer n)) as [r b]. exact E.
  - exact H.
  - unfold Node.queue_packet. destruct (Node.is_online n); simpl.
    + pose proof (enqueue_balance q0 n l p H) as E.
      destruct (Buffer.enqueue (Node.buffer n) p) as [ok b]. exact E.
    + exact H.
  - unfold Node.get_next_packet. destruct (Node.is_online n); simpl.
    + pose proof (dequeue_balance q0 n l H) as E.
      destruct (Buffer.dequeue (Node.buffer n)) as [r b]. exact E.
    + exact H.
  - exact H.
  - exact H.
  - unfold fifo_balance in *. simpl in *.
    rewrite dict_get_unchanged_buffer. exact H.
  - exact H.
Qed.

Lemma fold_balance q0 (ops : list NodeOps.op) (st : Node.t World * NodeOps.log) :
  fifo_balance q0 st -> fifo_balance q0 (fold_left NodeOps.apply ops st).
Proof.
  revert st. induction ops as [|o ops IH]; intros st H; simpl.
  - exact H.
  - apply IH. apply apply_balance. exact H.
Qed.

End Fifo.

(** C8: packets leave a buffer in the order they entered it.  After any
    interleaving of enqueues and dequeues (on the buffer or through its
    node) with link-state and online-status changes, the packets queued at
    the start followed by those accepted since are exactly the packets
    handed out so far followed by those still queued, both in order; and
    [dequeue] returns and removes the head of the queue. *)
Theorem fifo_order {World : Type} (n : Node.t World) (ops : list NodeOps.op) :
  Buffer._queue (Node.buffer n) ++ NodeOps.accepted (snd (NodeOps.run ops n))
  = NodeOps.returned (snd (NodeOps.run ops n))
      ++ Buffer._queue (Node.buffer (fst (NodeOps.run ops n)))
  /\ forall (m : Z) (p : Packet.t) (q : list Packet.t),
       Buffer.dequeue (Buffer.mk m (p :: q)) = (Some p, Buffer.mk m q).
Proof.
  split.
  - apply (fold_balance (Buffer._queue (Node.buffer n)) ops (n, NodeOps.mk_log [] [])).
    unfold fifo_balance. simpl. rewrite !app_nil_r. reflexivity.
  - intros m p q. reflexivity.
Qed.

Example fifo_run :
  NodeOps.returned (snd (NodeOps.run
    [NodeOps.QueuePacket (pkt "A" "C" "p1"); NodeOps.SetInRange "C" false;
     NodeOps.QueuePacket (pkt "A" "C" "p2"); NodeOps.GetNextPacket;
     NodeOps.QueuePacket (pkt "A" "C" "p3"); NodeOps.AddConnection "C" true;
     NodeOps.GetNextPacket; NodeOps.GetNextPacket]
    (relay 2)))
  = [pkt "A" "C" "p1"; pkt "A" "C" "p2"; pkt "A" "C" "p3"].
Proof. reflexivity. Qed.

(** ** Receiving at a node *)

(** C2: an offline node refuses the packet and touches nothing (no hop,
    no callback).  An online node appends its own id once to the hop list
    and changes nothing else in the packet; if it is the destination it
    returns [True], having run the delivery callback (when one is
    registered) on the packet, and otherwise it returns what
    [queue_packet] returns on that packet. *)
Theorem receive_packet_spec {World : Type} (n : Node.t World) (p : Packet.t) (w : World) :
  (Node.is_online n = false -> Node.receive_packet n p w = (false, n, p, w))
  /\ (Node.is_online n = true ->
      let p' := Packet.add_hop p (Node.node_id n) in
      Packet.hops p' = Packet.hops p ++ [Node.node_id n]
      /\ (Packet.destination p = Node.node_id n ->
          Node.receive_packet n p w
          = (true, n, p',
             match Node.on_receive n with
             | Some callback => callback p' w
             | None => w
             end))
      /\ (Packet.destination p <> Node.node_id n ->
          Node.receive_packet n p w
          = (fst (Node.queue_packet n p'), snd (Node.queue_packet n p'), p', w))).
Proof.
  split.
  - intros Hoff. unfold Node.receive_packet. rewrite Hoff. reflexivity.
  - intros Hon p'. split; [reflexivity | split].
    + intros Hd. unfold Node.receive_packet. rewrite Hon. simpl.
      rewrite Hd, String.eqb_refl. destruct (Node.on_receive n); reflexivity.
    + intros Hd. unfold Node.receive_packet. rewrite Hon. simpl.
      apply String.eqb_neq in Hd. rewrite Hd.
      fold p'. destruct (Node.queue_packet n p'); reflexivity.
Qed.

Lemma receive_packet_spec_witness :
  Node.receive_packet counting_sink (pkt "A" "B" "p1") 0%nat
  = (true, counting_sink, Packet.add_hop (pkt "A" "B" "p1") "B", 1%nat)
  /\ Node.receive_packet (Node.set_online counting_sink false) (pkt "A" "B" "p1") 0%nat
     = (false, Node.set_online counting_sink false, pkt "A" "B" "p1", 0%nat).
Proof.
  split.
  - apply (receive_packet_spec counting_sink (pkt "A" "B" "p1") 0%nat);
      reflexivity.
  - apply (receive_packet_spec (Node.set_online counting_sink false)
             (pkt "A" "B" "p1") 0%nat).
    reflexivity.
Defined.

(** C9: when an online node that is not the destination is handed a
    packet while its buffer is full, [receive_packet] returns [False] and
    leaves the node as it was, but the packet already carries the node's
    id as its last hop. *)
Theorem receive_packet_full_records_hop {World : Type}
    (n : Node.t World) (p : Packet.t) (w : World) :
  Node.is_online n = true ->
  Packet.destination p <> Node.node_id n ->
  Buffer.is_full (Node.buffer n) = true ->
  Node.receive_packet n p w
  = (false, n, Packet.add_hop p (Node.node_id n), w)
  /\ Packet.hops (Packet.add_hop p (Node.node_id n))
     = Packet.hops p ++ [Node.node_id n].
Proof.
  intros Hon Hd Hfull. split; [|reflexivity].
  unfold Node.receive_packet. rewrite Hon. simpl.
  apply String.eqb_neq in Hd. rewrite Hd.
  unfold Node.queue_packet. rewrite Hon. simpl.
  rewrite (enqueue_full _ _ Hfull). destruct n; reflexivity.
Qed.

Lemma receive_packet_full_records_hop_witness :
  Node.receive_packet (relay 0) (pkt "A" "C" "p1") 0%nat
  = (false, relay 0, Packet.add_hop (pkt "A" "C" "p1") "B", 0%nat)
  /\ Packet.hops (Packet.add_hop (pkt "A" "C" "p1") "B") = [] ++ ["B"].
Proof.
  apply (receive_packet_full_records_hop (relay 0) (pkt "A" "C" "p1") 0%nat).
  - reflexivity.
  - discriminate.
  - reflexivity.
Defined.

(** C10: [peek_next_packet] returns the head of the queue, or nothing
    when the queue is empty, whatever the online flag is, and changes
    nothing; [get_next_packet] on an offline node returns nothing and
    leaves the node, buffer included, as it was. *)
Theorem peek_ignores_online {World : Type} (n : Node.t World) :
  Node.peek_next_packet n = head (Buffer._queue (Node.buffer n))
  /\ (forall online : bool,
        Node.peek_next_packet (Node.set_online n online) = Node.peek_next_packet n)
  /\ (Node.is_online n = false -> Node.get_next_packet n = (None, n)).
Proof.
  split; [|split].
  - unfold Node.peek_next_packet, Buffer.peek.
    destruct (Buffer._queue (Node.buffer n)); reflexivity.
  - intros online. reflexivity.
  - intros Hoff. unfold Node.get_next_packet. rewrite Hoff. reflexivity.
Qed.

Lemma peek_ignores_online_witness :
  Node.get_next_packet
    (Node.set_online (snd (Node.queue_packet (relay 2) (pkt "A" "C" "p1"))) false)
  = (None, Node.set_online (snd (Node.queue_packet (relay 2) (pkt "A" "C" "p1"))) false).
Proof.
  apply (peek_ignores_online
           (Node.set_online (snd (Node.queue_packet (relay 2) (pkt "A" "C" "p1"))) false)).
  reflexivity.
Defined.

Example peek_offline :
  Node.peek_next_packet
    (Node.set_online (snd (Node.queue_packet (relay 2) (pkt "A" "C" "p1"))) false)
  = Some (pkt "A" "C" "p1").
Proof. reflexivity. Qed.

(** ** Loops *)

Lemma for_each_invariant {S A : Type} (P : S -> Prop) (body : S -> A -> option S) :
  (forall s x s', body s x = Some s' -> P s -> P s') ->
  forall xs s s', for_each body xs s = Some s' -> P s -> P s'.
Proof.
  intros Hbody xs. induction xs as [|x xs IH]; intros s s' Hrun Hs; simpl in Hrun.
  - injection Hrun as <-. exact Hs.
  - destruct (body s x) as [s1|] eqn:E; simpl in Hrun; [|discriminate].
    apply (IH s1 s' Hrun). apply (Hbody s x s1 E Hs).
Qed.

Lemma for_each_total {S A : Type} (P : S -> Prop) (body : S -> A -> option S)
    (xs : list A) :
  (forall s x, x ∈ xs -> P s -> exists s', body s x = Some s' /\ P s') ->
  forall s, P s -> exists s', for_each body xs s = Some s' /\ P s'.
Proof.
  induction xs as [|x xs IH]; intros Hbody s Hs; simpl.
  - exists s. split; [reflexivity | exact Hs].
  - destruct (Hbody s x) as [s1 [E H1]]; [left | exact Hs |].
    rewrite E. simpl. apply IH; [|exact H1].
    intros s0 y Hy. apply Hbody. right. exact Hy.
Qed.

(** ** The satellite scenario *)

Section Space.
Context {World : Type}.
Variable cos : float -> float.

(** What one turn of the loop over the routes can do: nothing, or take
    the head packet of the source and start a worker on a link that was
    idle. *)
Lemma route_step_cases (s s' : SpaceScenario.t World) (source_id : string) (link_idx : Z)
    (target_id : string) (is_visible : bool) :
  SpaceScenario.route_step s (source_id, link_idx, target_id, is_visible) = Some s' ->
  s' = s
  \/ (exists n, SpaceScenario.nodes s !! source_id = Some n
        /\ s' = SpaceScenario.set_nodes s (<[source_id := n]> (SpaceScenario.nodes s)))
  \/ (is_visible = true
      /\ (link_idx ∉ SpaceScenario._transmitting_links s)
      /\ exists n p,
           SpaceScenario.nodes s !! source_id = Some n
           /\ Node.get_next_packet n = (Some p, snd (Node.get_next_packet n))
           /\ s' = SpaceScenario._animate_transmission
                     (SpaceScenario.set_nodes s
                        (<[source_id := snd (Node.get_next_packet n)]>
                           (SpaceScenario.nodes s)))
                     link_idx source_id target_id p).
Proof.
  unfold SpaceScenario.route_step. intros H.
  destruct is_visible; simpl in H; [|left; congruence].
  destruct (bool_decide (link_idx ∈ SpaceScenario._transmitting_links s)) eqn:Hin;
    [left; congruence|].
  apply bool_decide_eq_false in Hin.
  destruct (SpaceScenario.nodes s !! source_id) as [n|] eqn:Hn; simpl in H;
    [|discriminate].
  destruct (Node.buffer_size n =? 0); [left; congruence|].
  destruct (SpaceScenario.nodes s !! target_id) as [tn|] eqn:Htn; simpl in H;
    [|discriminate].
  destruct (negb (String.eqb target_id "E") && Buffer.is_full (Node.buffer tn));
    [left; congruence|].
  destruct (Node.get_next_packet n) as [[p|] n'] eqn:Hg.
  - right. right. split; [reflexivity|]. split; [exact Hin|].
    exists n, p. rewrite Hg. simpl. split; [reflexivity|].
    split; [reflexivity|]. congruence.
  - right. left. exists n. split; [reflexivity|].
    assert (n' = n) as ->.
    { unfold Node.get_next_packet in Hg. destruct (negb (Node.is_online n)).
      - congruence.
      - unfold Buffer.dequeue in Hg.
        destruct (Buffer._queue (Node.buffer n)) eqn:Hq; [|discriminate].
        injection Hg as <-. destruct n; reflexivity. }
    congruence.
Qed.

(** Starting a worker on an idle link keeps the links exclusive. *)
Lemma animate_exclusive (s : SpaceScenario.t World) (link_idx : Z)
    (source_id target_id : string) (p : Packet.t) :
  link_idx ∉ SpaceScenario._transmitting_links s ->
  SpaceInv.exclusive s ->
  SpaceInv.exclusive
    (SpaceScenario._animate_transmission s link_idx source_id target_id p).
Proof.
  intros Hidle [Hnd Hset]. unfold SpaceInv.exclusive, SpaceInv.in_flight in *.
  simpl. rewrite fmap_app. simpl. split.
  - apply NoDup_app. split; [exact Hnd|]. split.
    + intros i Hi Hi'. apply list_elem_of_singleton in Hi'. subst i.
      apply Hidle. apply Hset. exact Hi.
    + apply NoDup_singleton.
  - intros i. rewrite elem_of_union, elem_of_singleton, elem_of_app,
      list_elem_of_singleton, Hset. tauto.
Qed.

Lemma route_step_exclusive (s s' : SpaceScenario.t World)
    (route : string * Z * string * bool) :
  SpaceScenario.route_step s route = Some s' ->
  SpaceInv.exclusive s -> SpaceInv.exclusive s'.
Proof.
  destruct route as [[[source_id link_idx] target_id] is_visible].
  intros H Hex. apply route_step_cases in H.
  destruct H as [-> | [[n [_ ->]] | [_ [Hidle [n [p [_ [_ ->]]]]]]]].
  - exact Hex.
  - exact Hex.
  - apply animate_exclusive; assumption.
Qed.

Lemma process_all_exclusive (s s' : SpaceScenario.t World) :
  SpaceScenario._process_all_transmissions s = Some s' ->
  SpaceInv.exclusive s -> SpaceInv.exclusive s'.
Proof.
  unfold SpaceScenario._process_all_transmissions. intros H.
  destruct (SpaceScenario.routes s) as [rs|]; simpl in H; [|discriminate].
  revert H. apply for_each_invariant.
  intros s0 r s1. apply route_step_exclusive.
Qed.

Lemma update_link_visible_frame (s s' : SpaceScenario.t World) :
  SpaceScenario.update_link_visible cos s = Some s' ->
  SpaceScenario.nodes s' = SpaceScenario.nodes s
  /\ SpaceScenario.workers s' = SpaceScenario.workers s
  /\ SpaceScenario._transmitting_links s' = SpaceScenario._transmitting_links s
  /\ SpaceScenario.antenna_outage_active s' = SpaceScenario.antenna_outage_active s.
Proof.
  unfold SpaceScenario.update_link_visible. intros H.
  repeat match type of H with
  | (?m ≫= _) = Some _ => destruct m; simpl in H; [|discriminate]
  end.
  injection H as <-. simpl. auto.
Qed.

(** Taking position [i] out of a list without duplicates. *)
Lemma remove_at_fmap {A B : Type} (f : A -> B) (i : nat) (l : list A) :
  f <$> remove_at i l = remove_at i (f <$> l).
Proof. unfold remove_at. rewrite fmap_app, fmap_take, fmap_drop. reflexivity. Qed.

Lemma remove_at_NoDup {A : Type} (i : nat) (l : list A) (x : A) :
  l !! i = Some x -> NoDup l ->
  NoDup (remove_at i l)
  /\ forall y, y ∈ remove_at i l <-> y ∈ l /\ y <> x.
Proof.
  intros Hi Hnd. unfold remove_at.
  pose proof (take_drop_middle l i x Hi) as Hl.
  rewrite <- Hl in Hnd. apply NoDup_app in Hnd as [H1 [H2 H3]].
  apply NoDup_cons in H3 as [H3 H4]. split.
  - apply NoDup_app. split; [exact H1|]. split; [|exact H4].
    intros y Hy Hy'. apply (H2 y Hy). right. exact Hy'.
  - intros y.
    assert (Hsplit : y ∈ l <-> y ∈ take i l ++ x :: drop (S i) l)
      by (rewrite Hl; reflexivity).
    rewrite Hsplit, !elem_of_app, elem_of_cons. split.
    + intros [Hy|Hy].
      * split; [left; exact Hy|]. intros ->. apply (H2 x Hy). left.
      * split; [right; right; exact Hy|]. intros ->. exact (H3 Hy).
    + intros [[Hy|[->|Hy]] Hne]; [left; exact Hy | congruence | right; exact Hy].
Qed.

Lemma finish_exclusive (s s' : SpaceScenario.t World) (i : nat) :
  SpaceScenario.step cos s (SpaceScenario.Finish i) = Some s' ->
  SpaceInv.exclusive s -> SpaceInv.exclusive s'.
Proof.
  simpl. intros H [Hnd Hset].
  destruct (SpaceScenario.workers s !! i) as [w|] eqn:Hw; simpl in H; [|discriminate].
  unfold SpaceScenario._animate_transmission_resume in H. simpl in H.
  destruct (SpaceScenario.nodes s !! SpaceScenario.tx_target_id w) as [tn|];
    simpl in H; [|discriminate].
  assert (Hi : SpaceInv.in_flight s !! i = Some (SpaceScenario.tx_link_idx w)).
  { unfold SpaceInv.in_flight. rewrite list_lookup_fmap, Hw. reflexivity. }
  destruct (remove_at_NoDup i _ _ Hi Hnd) as [Hnd' Hmem].
  assert (Hgoal : forall s0 : SpaceScenario.t World,
            SpaceScenario.workers s0 = remove_at i (SpaceScenario.workers s) ->
            SpaceScenario._transmitting_links s0 = SpaceScenario._transmitting_links s ->
            SpaceInv.exclusive
              (SpaceScenario.set_transmitting_links s0
                 (SpaceScenario._transmitting_links s0 ∖ {[SpaceScenario.tx_link_idx w]}))).
  { intros s0 Hws Hls. unfold SpaceInv.exclusive, SpaceInv.in_flight. simpl.
    rewrite Hws, Hls, remove_at_fmap. split; [exact Hnd'|].
    intros j. rewrite elem_of_difference, elem_of_singleton, Hmem, Hset.
    reflexivity. }
  injection H as <-.
  destruct (String.eqb (SpaceScenario.tx_target_id w) "MO-SAT1"
            && SpaceScenario.blackhole_active s).
  - apply Hgoal; reflexivity.
  - destruct (String.eqb (SpaceScenario.tx_target_id w) "E").
    + apply Hgoal; reflexivity.
    + destruct (Node.queue_packet tn (SpaceScenario.tx_packet w)).
      apply Hgoal; reflexivity.
Qed.

Lemma step_exclusive (s s' : SpaceScenario.t World) (e : SpaceScenario.event) :
  SpaceScenario.step cos s e = Some s' ->
  SpaceInv.exclusive s -> SpaceInv.exclusive s'.
Proof.
  destruct e as [|i|fresh_id now| |ui_ok|id1 now1 id2 now2|].
  - simpl. unfold SpaceScenario.run_simulation, SpaceScenario._simulation_tick.
    destruct (negb (SpaceScenario.is_paused s)); [|congruence].
    intros H Hex.
    destruct (SpaceScenario.update_link_visible cos s) as [s1|] eqn:E;
      simpl in H; [|discriminate].
    apply (process_all_exclusive s1 s' H).
    destruct (update_link_visible_frame s s1 E) as [_ [Hw [Hl _]]].
    unfold SpaceInv.exclusive, SpaceInv.in_flight in *. rewrite Hw, Hl. exact Hex.
  - apply finish_exclusive.
  - simpl. unfold SpaceScenario.action_send_packet. intros H Hex.
    destruct (SpaceScenario.nodes s !! "MA") as [n|]; simpl in H; [|discriminate].
    destruct (negb (Buffer.is_full (Node.buffer n))); [|congruence].
    destruct (Node.queue_packet n _) as [[|] n'];
      injection H as <-; exact Hex.
  - simpl. intros H Hex. injection H as <-. exact Hex.
  - simpl. unfold SpaceScenario.toggle_blackhole_attack. intros H Hex.
    injection H as <-. simpl. destruct ui_ok; [|exact Hex].
    destruct (negb (SpaceScenario.blackhole_active s)); [|exact Hex].
    destruct (SpaceScenario.nodes s !! "MO-SAT1"); exact Hex.
  - simpl. unfold SpaceScenario.trigger_resource_exhaustion. intros H Hex.
    destruct (SpaceScenario.nodes s !! "MO-SAT1") as [n1|]; simpl in H; [|discriminate].
    destruct (SpaceScenario.nodes s !! "MO-SAT2") as [n2|]; simpl in H; [|discriminate].
    injection H as <-.
    destruct (negb (Buffer.is_full (Node.buffer n1)));
      destruct (negb (Buffer.is_full (Node.buffer n2)));
      repeat match goal with
      | |- context [Node.queue_packet ?n ?p] => destruct (Node.queue_packet n p)
      end; exact Hex.
  - simpl. intros H Hex. injection H as <-. exact Hex.
Qed.

Lemma init_exclusive : SpaceInv.exclusive (SpaceScenario.__init__ (World := World)).
Proof.
  split.
  - apply NoDup_nil_2.
  - intros i. unfold SpaceInv.in_flight. simpl. split.
    + intros H. apply elem_of_empty in H. destruct H.
    + intros H. apply elem_of_nil in H. destruct H.
Qed.

Lemma reachable_exclusive (s : SpaceScenario.t World) :
  SpaceScenario.reachable cos s -> SpaceInv.exclusive s.
Proof.
  induction 1 as [|s e s' _ IH Hstep].
  - apply init_exclusive.
  - apply (step_exclusive s s' e Hstep IH).
Qed.

End Space.

(** ** The convoy scenario *)

Section Military.
Context {World : Type}.

Lemma get_next_packet_online (n : Node.t World) :
  Node.is_online (snd (Node.get_next_packet n)) = Node.is_online n.
Proof.
  unfold Node.get_next_packet. destruct (negb (Node.is_online n)); [reflexivity|].
  destruct (Buffer.dequeue (Node.buffer n)). reflexivity.
Qed.

Lemma queue_packet_online (n : Node.t World) (p : Packet.t) :
  Node.is_online (snd (Node.queue_packet n p)) = Node.is_online n.
Proof.
  unfold Node.queue_packet. destruct (negb (Node.is_online n)); [reflexivity|].
  destruct (Buffer.enqueue (Node.buffer n) p). reflexivity.
Qed.

Lemma vehicle_online_insert (vs : gmap string (Node.t World)) (k : string)
    (n n' : Node.t World) (id : string) (b : bool) :
  vs !! k = Some n -> Node.is_online n' = Node.is_online n ->
  MilitaryInv.vehicle_online vs id b ->
  MilitaryInv.vehicle_online (<[k := n']> vs) id b.
Proof.
  intros Hk Hon [v [Hv Hb]]. unfold MilitaryInv.vehicle_online.
  destruct (decide (k = id)) as [->|Hne].
  - exists n'. rewrite lookup_insert_eq. split; [reflexivity|]. congruence.
  - exists v. rewrite lookup_insert_ne by exact Hne. auto.
Qed.

(** Replacing a vehicle by one with the same online flag, and changing
    nothing else that [well_formed] looks at. *)
Lemma well_formed_insert (s s' : MilitaryScenario.t World) (k : string)
    (n n' : Node.t World) :
  MilitaryScenario.vehicles s !! k = Some n ->
  Node.is_online n' = Node.is_online n ->
  MilitaryScenario.vehicles s' = <[k := n']> (MilitaryScenario.vehicles s) ->
  MilitaryScenario.v3_online s' = MilitaryScenario.v3_online s ->
  MilitaryScenario._range_states s' = MilitaryScenario._range_states s ->
  MilitaryScenario._range_timers s' = MilitaryScenario._range_timers s ->
  MilitaryInv.well_formed s -> MilitaryInv.well_formed s'.
Proof.
  intros Hk Hon Hv H3 Hr Ht (W1 & W2 & W3 & W4).
  unfold MilitaryInv.well_formed. rewrite Hv, H3, Hr, Ht.
  repeat split; try apply W4;
    apply (vehicle_online_insert _ k n n'); assumption.
Qed.

Lemma start_transfer_spec (s s' : MilitaryScenario.t World)
    (from_id to_id : string) (link_index : Z) :
  MilitaryScenario._start_transfer s from_id to_id link_index = Some s' ->
  exists n, MilitaryScenario.vehicles s !! from_id = Some n
    /\ MilitaryScenario.vehicles s'
       = <[from_id := snd (Node.get_next_packet n)]> (MilitaryScenario.vehicles s)
    /\ MilitaryScenario.v3_online s' = MilitaryScenario.v3_online s
    /\ MilitaryScenario._range_states s' = MilitaryScenario._range_states s
    /\ MilitaryScenario._range_timers s' = MilitaryScenario._range_timers s
    /\ ((MilitaryScenario._transfer_in_progress s' = MilitaryScenario._transfer_in_progress s
         /\ MilitaryScenario.workers s' = MilitaryScenario.workers s
         /\ fst (Node.get_next_packet n) = None)
        \/ (MilitaryScenario._transfer_in_progress s' = true
            /\ exists p, fst (Node.get_next_packet n) = Some p
                 /\ MilitaryScenario.workers s'
                    = MilitaryScenario.workers s
                      ++ [MilitaryScenario.TransferAnimation p from_id to_id link_index])).
Proof.
  unfold MilitaryScenario._start_transfer. intros H.
  destruct (MilitaryScenario.vehicles s !! from_id) as [n|]; simpl in H; [|discriminate].
  exists n. split; [reflexivity|].
  destruct (Node.get_next_packet n) as [[p|] n']; injection H as <-; simpl.
  - repeat split; try reflexivity. right. split; [reflexivity|].
    exists p. split; reflexivity.
  - repeat split; try reflexivity. left. repeat split; reflexivity.
Qed.

Lemma start_hq_delivery_spec (s s' : MilitaryScenario.t World) :
  MilitaryScenario._start_hq_delivery s = Some s' ->
  exists n, MilitaryScenario.vehicles s !! "V3" = Some n
    /\ MilitaryScenario.vehicles s'
       = <["V3" := snd (Node.get_next_packet n)]> (MilitaryScenario.vehicles s)
    /\ MilitaryScenario.v3_online s' = MilitaryScenario.v3_online s
    /\ MilitaryScenario._range_states s' = MilitaryScenario._range_states s
    /\ MilitaryScenario._range_timers s' = MilitaryScenario._range_timers s
    /\ ((MilitaryScenario._transfer_in_progress s' = MilitaryScenario._transfer_in_progress s
         /\ MilitaryScenario.workers s' = MilitaryScenario.workers s
         /\ fst (Node.get_next_packet n) = None)
        \/ (MilitaryScenario._transfer_in_progress s' = true
            /\ exists p, fst (Node.get_next_packet n) = Some p
                 /\ MilitaryScenario.workers s'
                    = MilitaryScenario.workers s
                      ++ [MilitaryScenario.HqDeliveryAnimation p])).
Proof.
  unfold MilitaryScenario._start_hq_delivery. intros H.
  destruct (MilitaryScenario.vehicles s !! "V3") as [n|]; simpl in H; [|discriminate].
  exists n. split; [reflexivity|].
  destruct (Node.get_next_packet n) as [[p|] n']; injection H as <-; simpl.
  - repeat split; try reflexivity. right. split; [reflexivity|].
    exists p. split; reflexivity.
  - repeat split; try reflexivity. left. repeat split; reflexivity.
Qed.

(** Whatever [_process_forwarding] does, it does through one of the two
    start functions, and only when no transfer is in progress. *)
Lemma process_forwarding_cases (s s' : MilitaryScenario.t World) :
  MilitaryScenario._process_forwarding s = Some s' ->
  s' = s
  \/ (MilitaryScenario._transfer_in_progress s = false
      /\ ((exists from_id to_id link_index,
             MilitaryScenario._start_transfer s from_id to_id link_index = Some s')
          \/ MilitaryScenario._start_hq_delivery s = Some s')).
Proof.
  unfold MilitaryScenario._process_forwarding. intros H.
  destruct (MilitaryScenario._transfer_in_progress s); [left; congruence|].
  repeat match type of H with
  | (?m ≫= _) = Some _ => destruct m as [[|]|]; simpl in H; try discriminate
  | (if ?c then _ else _) = Some _ => destruct c; simpl in H
  | (if ?c then _ else _) ≫= _ = Some _ => destruct c; simpl in H
  end;
  first [ left; congruence
        | right; split; [reflexivity|]; left; solve [eauto]
        | right; split; [reflexivity|]; right; exact H ].
Qed.

Lemma serialized_start (s s' : MilitaryScenario.t World) :
  MilitaryScenario._transfer_in_progress s = false ->
  MilitaryInv.serialized s ->
  (MilitaryScenario._transfer_in_progress s' = MilitaryScenario._transfer_in_progress s
   /\ MilitaryScenario.workers s' = MilitaryScenario.workers s)
  \/ (MilitaryScenario._transfer_in_progress s' = true
      /\ exists w, MilitaryScenario.workers s' = MilitaryScenario.workers s ++ [w]) ->
  MilitaryInv.serialized s'.
Proof.
  intros Hidle [[_ Hw] | [Hbusy _]] Hs'; [|congruence].
  destruct Hs' as [[Hf Hw'] | [Hf [w Hw']]].
  - left. split; congruence.
  - right. split; [exact Hf|]. exists w. rewrite Hw', Hw. reflexivity.
Qed.

Lemma process_forwarding_inv (s s' : MilitaryScenario.t World) :
  MilitaryScenario._process_forwarding s = Some s' ->
  MilitaryInv.well_formed s /\ MilitaryInv.serialized s ->
  MilitaryInv.well_formed s' /\ MilitaryInv.serialized s'.
Proof.
  intros H [Hwf Hser].
  apply process_forwarding_cases in H.
  destruct H as [-> | [Hidle [[from_id [to_id [link_index H]]] | H]]].
  - auto.
  - apply start_transfer_spec in H.
    destruct H as (n & Hn & Hv & H3 & Hr & Ht & Hw). split.
    + apply (well_formed_insert s s' from_id n (snd (Node.get_next_packet n)));
        auto using get_next_packet_online.
    + apply (serialized_start s s' Hidle Hser).
      destruct Hw as [(Hf & Hw & _) | (Hf & p & _ & Hw)]; eauto.
  - apply start_hq_delivery_spec in H.
    destruct H as (n & Hn & Hv & H3 & Hr & Ht & Hw). split.
    + apply (well_formed_insert s s' "V3" n (snd (Node.get_next_packet n)));
        auto using get_next_packet_online.
    + apply (serialized_start s s' Hidle Hser).
      destruct Hw as [(Hf & Hw & _) | (Hf & p & _ & Hw)]; eauto.
Qed.

(** The visibility update touches the range states and timers only, and
    never fails on a well-formed state. *)
Lemma update_range_states_frame (randint : Z) (s s' : MilitaryScenario.t World) :
  MilitaryScenario._update_range_states randint s = Some s' ->
  MilitaryScenario.vehicles s' = MilitaryScenario.vehicles s
  /\ MilitaryScenario.v3_online s' = MilitaryScenario.v3_online s
  /\ MilitaryScenario._transfer_in_progress s' = MilitaryScenario._transfer_in_progress s
  /\ MilitaryScenario.workers s' = MilitaryScenario.workers s
  /\ MilitaryScenario._road_frame s' = MilitaryScenario._road_frame s
  /\ is_Some (MilitaryScenario._range_states s' !! "v1_v2")
  /\ is_Some (MilitaryScenario._range_states s' !! "v2_v3")
  /\ (is_Some (MilitaryScenario._range_states s !! "v3_cp") ->
      is_Some (MilitaryScenario._range_states s' !! "v3_cp"))
  /\ is_Some (MilitaryScenario._range_timers s' !! "v3_cp").
Proof.
  unfold MilitaryScenario._update_range_states. intros H.
  destruct s as [vs rf tip rs rt ip v3 pc pd ws]. simpl in *.
  destruct v3; simpl in H;
    (destruct (rt !! "v3_cp") as [timer|] eqn:Et; simpl in H; [|discriminate]).
  - rewrite lookup_insert_eq in H. simpl in H.
    destruct (timer + 1 >? randint).
    + rewrite !lookup_insert_ne in H by done.
      destruct (rs !! "v3_cp") as [st|] eqn:Es; simpl in H; [|discriminate].
      injection H as <-. simpl.
      repeat split; try reflexivity;
        try (intros _); rewrite ?lookup_insert_eq;
        rewrite ?lookup_insert_ne by done;
        rewrite ?lookup_insert_eq; eauto.
    + injection H as <-. simpl.
      repeat split; try reflexivity;
        try (intros Hs); rewrite ?lookup_insert_eq;
        rewrite ?lookup_insert_ne by done;
        rewrite ?lookup_insert_eq; eauto.
  - injection H as <-. simpl.
    repeat split; try reflexivity;
      try (intros _); rewrite ?lookup_insert_eq;
      rewrite ?lookup_insert_ne by done;
      rewrite ?lookup_insert_eq; eauto.
Qed.

Lemma update_range_states_total (randint : Z) (s : MilitaryScenario.t World) :
  MilitaryInv.well_formed s ->
  exists s', MilitaryScenario._update_range_states randint s = Some s'.
Proof.
  intros (_ & _ & _ & _ & _ & [st Hs] & [timer Ht]).
  unfold MilitaryScenario._update_range_states.
  destruct s as [vs rf tip rs rt ip v3 pc pd ws]. simpl in *.
  destruct v3; simpl; rewrite Ht; simpl.
  - rewrite lookup_insert_eq. simpl. destruct (timer + 1 >? randint).
    + rewrite !lookup_insert_ne by done. rewrite Hs. simpl. eauto.
    + eauto.
  - eauto.
Qed.

Lemma update_range_states_inv (randint : Z) (s s' : MilitaryScenario.t World) :
  MilitaryScenario._update_range_states randint s = Some s' ->
  MilitaryInv.well_formed s /\ MilitaryInv.serialized s ->
  MilitaryInv.well_formed s' /\ MilitaryInv.serialized s'.
Proof.
  intros H [Hwf Hser].
  destruct (update_range_states_frame randint s s' H)
    as (Hv & H3 & Hf & Hw & _ & R1 & R2 & R3 & T).
  destruct Hwf as (W1 & W2 & W3 & _ & _ & W6 & _).
  split.
  - unfold MilitaryInv.well_formed. rewrite Hv, H3. auto 10.
  - unfold MilitaryInv.serialized. rewrite Hf, Hw. exact Hser.
Qed.

Lemma finish_inv (s s' : MilitaryScenario.t World) (i : nat) (ui_ok : bool) :
  MilitaryScenario.step s (MilitaryScenario.Finish i ui_ok) = Some s' ->
  MilitaryInv.well_formed s /\ MilitaryInv.serialized s ->
  MilitaryInv.well_formed s' /\ MilitaryInv.serialized s'.
Proof.
  simpl. intros H [Hwf Hser].
  destruct (MilitaryScenario.workers s !! i) as [w|] eqn:Hi; simpl in H;
    [|discriminate].
  injection H as <-.
  assert (Hrest : remove_at i (MilitaryScenario.workers s) = []).
  { destruct Hser as [[_ Hw] | [_ [w0 Hw]]]; rewrite Hw in Hi.
    - discriminate.
    - destruct i; [|discriminate]. rewrite Hw. reflexivity. }
  split.
  - destruct w as [p from_id to_id link_index | p]; simpl.
    + unfold MilitaryScenario._do_transfer_animation.
      destruct ui_ok; [|exact Hwf]. simpl.
      destruct (MilitaryScenario.vehicles s !! to_id) as [n|] eqn:Hn; [|exact Hwf].
      pose proof (queue_packet_online n p) as Hon.
      destruct (Node.queue_packet n p) as [ok n']. simpl in Hon.
      apply (well_formed_insert s _ to_id n n'); auto.
    + unfold MilitaryScenario._do_hq_delivery_animation.
      destruct ui_ok; exact Hwf.
  - left. destruct w as [p from_id to_id link_index | p]; simpl.
    + unfold MilitaryScenario._do_transfer_animation. split; [reflexivity|].
      destruct ui_ok; simpl; [|exact Hrest].
      destruct (MilitaryScenario.vehicles s !! to_id) as [n|]; [|exact Hrest].
      destruct (Node.queue_packet n p). exact Hrest.
    + unfold MilitaryScenario._do_hq_delivery_animation. split; [reflexivity|].
      destruct ui_ok; exact Hrest.
Qed.

Lemma send_packet_inv (s s' : MilitaryScenario.t World) (fresh_id : string)
    (now : float) :
  MilitaryScenario.action_send_packet s fresh_id now = Some s' ->
  MilitaryInv.well_formed s /\ MilitaryInv.serialized s ->
  MilitaryInv.well_formed s' /\ MilitaryInv.serialized s'.
Proof.
  unfold MilitaryScenario.action_send_packet. intros H [Hwf Hser].
  destruct (MilitaryScenario.vehicles s !! "V1") as [n|] eqn:Hn; simpl in H;
    [|discriminate].
  match type of H with
  | context [Node.queue_packet n ?p] =>
      pose proof (queue_packet_online n p) as Hon;
      destruct (Node.queue_packet n p) as [ok n']
  end.
  simpl in Hon. injection H as <-. split.
  - apply (well_formed_insert s _ "V1" n n'); auto.
  - exact Hser.
Qed.

Lemma toggle_v3_inv (s s' : MilitaryScenario.t World) :
  MilitaryScenario.action_toggle_v3 s = Some s' ->
  MilitaryInv.well_formed s /\ MilitaryInv.serialized s ->
  MilitaryInv.well_formed s' /\ MilitaryInv.serialized s'.
Proof.
  unfold MilitaryScenario.action_toggle_v3. intros H [Hwf Hser].
  destruct Hwf as ([v1 [H1 O1]] & [v2 [H2 O2]] & _ & R1 & R2 & R3 & T).
  destruct s as [vs rf tip rs rt ip v3 pc pd ws]. simpl in *.
  destruct (vs !! "V3") as [n|] eqn:Hn; simpl in H; [|discriminate].
  assert (Hfleet : forall b,
    MilitaryInv.vehicle_online (<["V3" := Node.set_online n b]> vs) "V1" true
    /\ MilitaryInv.vehicle_online (<["V3" := Node.set_online n b]> vs) "V2" true
    /\ MilitaryInv.vehicle_online (<["V3" := Node.set_online n b]> vs) "V3" b).
  { intros b. repeat split.
    - exists v1. rewrite lookup_insert_ne by done. auto.
    - exists v2. rewrite lookup_insert_ne by done. auto.
    - exists (Node.set_online n b). rewrite lookup_insert_eq. auto. }
  destruct v3; simpl in H; injection H as <-; split; try exact Hser;
    unfold MilitaryInv.well_formed; simpl;
    destruct (Hfleet false) as (F1 & F2 & F3);
    destruct (Hfleet true) as (G1 & G2 & G3);
    repeat split; try assumption;
    rewrite ?lookup_insert_eq; rewrite ?lookup_insert_ne by done;
    rewrite ?lookup_insert_eq; eauto.
Qed.

Lemma military_step_inv (s s' : MilitaryScenario.t World) (e : MilitaryScenario.event) :
  MilitaryScenario.step s e = Some s' ->
  MilitaryInv.well_formed s /\ MilitaryInv.serialized s ->
  MilitaryInv.well_formed s' /\ MilitaryInv.serialized s'.
Proof.
  destruct e as [randint | i ui_ok | fresh_id now | |].
  - simpl. unfold MilitaryScenario.run_simulation, MilitaryScenario._simulation_tick.
    destruct (negb (MilitaryScenario.is_paused s)); [|congruence].
    intros H Hinv.
    destruct (MilitaryScenario._update_range_states randint _) as [s1|] eqn:E;
      simpl in H; [|discriminate].
    apply (process_forwarding_inv s1 s' H).
    apply (update_range_states_inv randint _ s1 E).
    exact Hinv.
  - apply finish_inv.
  - apply send_packet_inv.
  - apply toggle_v3_inv.
  - simpl. intros H Hinv. injection H as <-. exact Hinv.
Qed.

Lemma military_init_inv :
  MilitaryInv.well_formed (MilitaryScenario.__init__ (World := World))
  /\ MilitaryInv.serialized (MilitaryScenario.__init__ (World := World)).
Proof.
  split.
  - unfold MilitaryInv.well_formed, MilitaryInv.vehicle_online. simpl.
    repeat split; eauto.
  - left. split; reflexivity.
Qed.

Lemma military_reachable_inv (s : MilitaryScenario.t World) :
  MilitaryScenario.reachable s ->
  MilitaryInv.well_formed s /\ MilitaryInv.serialized s.
Proof.
  induction 1 as [|s e s' _ IH _ Hstep].
  - apply military_init_inv.
  - apply (military_step_inv s s' e Hstep IH).
Qed.

Lemma military_run_reachable (es : list MilitaryScenario.event)
    (s s' : MilitaryScenario.t World) :
  Forall MilitaryScenario.possible es ->
  MilitaryScenario.run es s = Some s' ->
  MilitaryScenario.reachable s -> MilitaryScenario.reachable s'.
Proof.
  intros Hes. revert s. induction Hes as [|e es He _ IH]; intros s Hrun Hs.
  - injection Hrun as <-. exact Hs.
  - unfold MilitaryScenario.run in Hrun. simpl in Hrun.
    destruct (MilitaryScenario.step s e) as [s1|] eqn:E; simpl in Hrun;
      [|discriminate].
    apply (IH s1 Hrun). apply (MilitaryScenario.reachable_step s e s1 Hs He E).
Qed.

(** *** Which link is served *)

Lemma has_packets_head (s : MilitaryScenario.t World) (id : string)
    (v : Node.t World) :
  MilitaryScenario.vehicles s !! id = Some v ->
  MilitaryScenario.has_packets s id
  = Some (match head (Buffer._queue (Node.buffer v)) with
          | Some _ => true
          | None => false
          end).
Proof.
  intros Hv. unfold MilitaryScenario.has_packets. rewrite Hv. simpl.
  unfold Node.buffer_size, Buffer.size.
  destruct (Buffer._queue (Node.buffer v)); reflexivity.
Qed.

(** *** The subscripts never fail *)

Lemma start_transfer_total (s : MilitaryScenario.t World)
    (from_id to_id : string) (link_index : Z) :
  is_Some (MilitaryScenario.vehicles s !! from_id) ->
  exists s', MilitaryScenario._start_transfer s from_id to_id link_index = Some s'.
Proof.
  intros [v Hv]. unfold MilitaryScenario._start_transfer. rewrite Hv. simpl.
  destruct (Node.get_next_packet v) as [[p|] v']; eauto.
Qed.

Lemma process_forwarding_total (s : MilitaryScenario.t World) :
  MilitaryInv.well_formed s ->
  exists s', MilitaryScenario._process_forwarding s = Some s'.
Proof.
  intros ([v1 [H1 _]] & [v2 [H2 _]] & [v3 [H3 _]] & [r1 R1] & [r2 R2] & [r3 R3] & _).
  unfold MilitaryScenario._process_forwarding.
  destruct (MilitaryScenario._transfer_in_progress s); [eauto|].
  rewrite R1. simpl.
  rewrite (has_packets_head s "V1" v1 H1).
  destruct r1, (head (Buffer._queue (Node.buffer v1))); simpl;
    try (apply start_transfer_total; eauto);
    rewrite R2; simpl; rewrite (has_packets_head s "V2" v2 H2);
    destruct (r2 && MilitaryScenario.v3_online s),
             (head (Buffer._queue (Node.buffer v2))); simpl;
    try (apply start_transfer_total; eauto);
    rewrite R3; simpl; rewrite (has_packets_head s "V3" v3 H3);
    destruct (r3 && MilitaryScenario.v3_online s),
             (head (Buffer._queue (Node.buffer v3))); simpl; eauto;
    unfold MilitaryScenario._start_hq_delivery; rewrite H3; simpl;
    destruct (Node.get_next_packet v3) as [[p|] v3']; eauto.
Qed.

Lemma military_tick_total (s : MilitaryScenario.t World) (randint : Z) :
  MilitaryInv.well_formed s /\ MilitaryInv.serialized s ->
  exists s', MilitaryScenario.step s (MilitaryScenario.Tick randint) = Some s'.
Proof.
  intros Hinv. simpl. unfold MilitaryScenario.run_simulation.
  destruct (negb (MilitaryScenario.is_paused s)); [|eauto].
  unfold MilitaryScenario._simulation_tick.
  assert (Hinv' : MilitaryInv.well_formed
                    (MilitaryScenario.set_road_frame s
                       (MilitaryScenario._road_frame s + 1))
                  /\ MilitaryInv.serialized
                       (MilitaryScenario.set_road_frame s
                          (MilitaryScenario._road_frame s + 1))).
  { exact Hinv. }
  destruct (update_range_states_total randint _ (proj1 Hinv')) as [s1 E].
  rewrite E. simpl. apply process_forwarding_total.
  apply (update_range_states_inv randint _ s1 E Hinv').
Qed.

End Military.

Section SpaceRuns.
Context {World : Type}.
Variable cos : float -> float.

Lemma space_run_reachable (es : list SpaceScenario.event)
    (s s' : SpaceScenario.t World) :
  SpaceScenario.run cos es s = Some s' ->
  SpaceScenario.reachable cos s -> SpaceScenario.reachable cos s'.
Proof.
  revert s. induction es as [|e es IH]; intros s Hrun Hs.
  - injection Hrun as <-. exact Hs.
  - unfold SpaceScenario.run in Hrun. simpl in Hrun.
    destruct (SpaceScenario.step cos s e) as [s1|] eqn:E; simpl in Hrun;
      [|discriminate].
    apply (IH s1 Hrun). apply (SpaceScenario.reachable_step cos s e s1 Hs E).
Qed.

(** The loop over the routes leaves a link alone when it is not
    visible, when it is transmitting, when its source has nothing
    buffered, or when its target is not Earth and has a full buffer. *)
Lemma space_route_skipped (s : SpaceScenario.t World) (source_id : string)
    (link_idx : Z) (target_id : string) (is_visible : bool)
    (source_node target_node : Node.t World) :
  SpaceScenario.nodes s !! source_id = Some source_node ->
  SpaceScenario.nodes s !! target_id = Some target_node ->
  is_visible = false
  \/ link_idx ∈ SpaceScenario._transmitting_links s
  \/ Buffer._queue (Node.buffer source_node) = []
  \/ (target_id <> "E" /\ Buffer.is_full (Node.buffer target_node) = true) ->
  SpaceScenario.route_step s (source_id, link_idx, target_id, is_visible) = Some s.
Proof.
  intros Hs Ht Hskip. unfold SpaceScenario.route_step.
  destruct is_visible; simpl; [|reflexivity].
  destruct (bool_decide (link_idx ∈ SpaceScenario._transmitting_links s)) eqn:Hin;
    [reflexivity|].
  apply bool_decide_eq_false in Hin.
  rewrite Hs. simpl.
  destruct (Node.buffer_size source_node =? 0) eqn:Hsz; [reflexivity|].
  rewrite Ht. simpl.
  destruct Hskip as [Hv | [Hl | [Hq | [Hne Hfull]]]].
  - discriminate.
  - contradiction.
  - unfold Node.buffer_size, Buffer.size in Hsz. rewrite Hq in Hsz. discriminate.
  - apply String.eqb_neq in Hne. rewrite Hne, Hfull. reflexivity.
Qed.

(** *** The subscripts never fail *)

Lemma route_step_well_formed (s s' : SpaceScenario.t World)
    (route : string * Z * string * bool) :
  SpaceScenario.route_step s route = Some s' ->
  SpaceInv.well_formed s -> SpaceInv.well_formed s'.
Proof.
  destruct route as [[[source_id link_idx] target_id] is_visible].
  intros H [Hn Hl]. apply route_step_cases in H.
  destruct H as [-> | [[n [_ ->]] | [_ [_ [n [p [_ [_ ->]]]]]]]].
  - split; assumption.
  - split; [|exact Hl]. intros id Hid. simpl.
    apply lookup_insert_is_Some'. right. apply Hn. exact Hid.
  - split; [|exact Hl]. intros id Hid. simpl.
    apply lookup_insert_is_Some'. right. apply Hn. exact Hid.
Qed.

Lemma route_step_total (s : SpaceScenario.t World) (source_id : string)
    (link_idx : Z) (target_id : string) (is_visible : bool) :
  source_id ∈ SpaceInv.node_ids -> target_id ∈ SpaceInv.node_ids ->
  SpaceInv.well_formed s ->
  exists s',
    SpaceScenario.route_step s (source_id, link_idx, target_id, is_visible) = Some s'.
Proof.
  intros Hs Ht [Hn _]. unfold SpaceScenario.route_step.
  destruct (Hn source_id Hs) as [sn ->]. destruct (Hn target_id Ht) as [tn ->].
  simpl.
  destruct (negb is_visible
            || bool_decide (link_idx ∈ SpaceScenario._transmitting_links s));
    [eauto|].
  destruct (Node.buffer_size sn =? 0); [eauto|].
  destruct (negb (String.eqb target_id "E") && Buffer.is_full (Node.buffer tn));
    [eauto|].
  destruct (Node.get_next_packet sn) as [[p|] sn']; eauto.
Qed.

Lemma routes_total (s : SpaceScenario.t World) :
  length (SpaceScenario.link_visible s) = 6%nat ->
  exists rs, SpaceScenario.routes s = Some rs
    /\ forall source_id link_idx target_id is_visible,
         (source_id, link_idx, target_id, is_visible) ∈ rs ->
         source_id ∈ SpaceInv.node_ids /\ target_id ∈ SpaceInv.node_ids.
Proof.
  intros Hl. unfold SpaceScenario.routes.
  destruct (SpaceScenario.link_visible s)
    as [|v0 [|v1 [|v2 [|v3 [|v4 [|v5 [|]]]]]]]; try discriminate.
  simpl. eexists. split; [reflexivity|].
  intros source_id link_idx target_id is_visible Hin.
  unfold SpaceInv.node_ids.
  repeat (apply elem_of_cons in Hin as [Hin|Hin];
          [injection Hin as -> -> -> ->; split; set_solver|]).
  apply elem_of_nil in Hin. destruct Hin.
Qed.

Lemma process_all_total (s : SpaceScenario.t World) :
  SpaceInv.well_formed s ->
  exists s', SpaceScenario._process_all_transmissions s = Some s'
    /\ SpaceInv.well_formed s'.
Proof.
  intros Hwf. unfold SpaceScenario._process_all_transmissions.
  destruct (routes_total s (proj2 Hwf)) as [rs [-> Hrs]]. simpl.
  apply (for_each_total SpaceInv.well_formed SpaceScenario.route_step);
    [|exact Hwf].
  intros s0 [[[source_id link_idx] target_id] is_visible] Hin Hs0.
  destruct (Hrs _ _ _ _ Hin) as [Hsrc Htgt].
  destruct (route_step_total s0 source_id link_idx target_id is_visible
              Hsrc Htgt Hs0) as [s1 E].
  exists s1. split; [exact E|].
  apply (route_step_well_formed s0 s1 _ E Hs0).
Qed.

Lemma update_link_visible_total (s : SpaceScenario.t World) :
  SpaceInv.well_formed s ->
  exists s', SpaceScenario.update_link_visible cos s = Some s'
    /\ SpaceInv.well_formed s'.
Proof.
  intros [Hn Hl]. unfold SpaceScenario.update_link_visible.
  destruct s as [ns lv ph tl ip ps pd pp ba ao ws]. simpl in *.
  destruct lv as [|v0 [|v1 [|v2 [|v3 [|v4 [|v5 [|]]]]]]]; try discriminate.
  simpl. destruct ao; simpl; eexists; (split; [reflexivity|]);
    split; simpl; auto.
Qed.

Lemma space_tick_total (s : SpaceScenario.t World) :
  SpaceInv.well_formed s ->
  exists s', SpaceScenario.step cos s SpaceScenario.Tick = Some s'
    /\ SpaceInv.well_formed s'.
Proof.
  intros Hwf. simpl. unfold SpaceScenario.run_simulation.
  destruct (negb (SpaceScenario.is_paused s)); [|eauto].
  unfold SpaceScenario._simulation_tick.
  destruct (update_link_visible_total s Hwf) as [s1 [-> H1]]. simpl.
  apply process_all_total. exact H1.
Qed.

Lemma space_step_well_formed (s s' : SpaceScenario.t World) (e : SpaceScenario.event) :
  SpaceScenario.step cos s e = Some s' ->
  SpaceInv.well_formed s -> SpaceInv.well_formed s'.
Proof.
  intros H Hwf. destruct e as [|i|fresh_id now| |ui_ok|id1 now1 id2 now2|].
  - destruct (space_tick_total s Hwf) as [s1 [E H1]]. congruence.
  - simpl in H. destruct Hwf as [Hn Hl].
    destruct (SpaceScenario.workers s !! i) as [w|]; simpl in H; [|discriminate].
    unfold SpaceScenario._animate_transmission_resume in H. simpl in H.
    destruct (SpaceScenario.nodes s !! SpaceScenario.tx_target_id w) as [tn|];
      simpl in H; [|discriminate].
    injection H as <-.
    destruct (String.eqb (SpaceScenario.tx_target_id w) "MO-SAT1"
              && SpaceScenario.blackhole_active s); [split; assumption|].
    destruct (String.eqb (SpaceScenario.tx_target_id w) "E"); [split; assumption|].
    destruct (Node.queue_packet tn (SpaceScenario.tx_packet w)).
    split; [|exact Hl]. intros id Hid. simpl.
    apply lookup_insert_is_Some'. right. apply Hn. exact Hid.
  - simpl in H. unfold SpaceScenario.action_send_packet in H.
    destruct Hwf as [Hn Hl].
    destruct (SpaceScenario.nodes s !! "MA") as [n|]; simpl in H; [|discriminate].
    destruct (negb (Buffer.is_full (Node.buffer n)));
      [|injection H as <-; split; assumption].
    destruct (Node.queue_packet n _) as [[|] n']; injection H as <-;
      (split; [|exact Hl]); intros id Hid; simpl;
      apply lookup_insert_is_Some'; right; apply Hn; exact Hid.
  - simpl in H. injection H as <-. exact Hwf.
  - simpl in H. injection H as <-. destruct Hwf as [Hn Hl].
    unfold SpaceScenario.toggle_blackhole_attack. simpl.
    destruct ui_ok; [|split; assumption].
    destruct (negb (SpaceScenario.blackhole_active s)); [|split; assumption].
    destruct (SpaceScenario.nodes s !! "MO-SAT1") as [n|]; [|split; assumption].
    split; [|exact Hl]. intros id Hid. simpl.
    apply lookup_insert_is_Some'. right. apply Hn. exact Hid.
  - simpl in H. unfold SpaceScenario.trigger_resource_exhaustion in H.
    destruct Hwf as [Hn Hl].
    destruct (SpaceScenario.nodes s !! "MO-SAT1") as [n1|]; simpl in H; [|discriminate].
    destruct (SpaceScenario.nodes s !! "MO-SAT2") as [n2|]; simpl in H; [|discriminate].
    injection H as <-.
    destruct (negb (Buffer.is_full (Node.buffer n1)));
      destruct (negb (Buffer.is_full (Node.buffer n2)));
      repeat match goal with
      | |- context [Node.queue_packet ?n ?p] => destruct (Node.queue_packet n p)
      end;
      (split; [|exact Hl]); intros id Hid; simpl;
      repeat (apply lookup_insert_is_Some'; right); apply Hn; exact Hid.
  - simpl in H. injection H as <-. exact Hwf.
Qed.

Lemma space_reachable_well_formed (s : SpaceScenario.t World) :
  SpaceScenario.reachable cos s -> SpaceInv.well_formed s.
Proof.
  induction 1 as [|s e s' _ IH Hstep].
  - split; [|reflexivity]. intros id Hid. unfold SpaceInv.node_ids in Hid.
    repeat (apply elem_of_cons in Hid as [->|Hid]; [vm_compute; eauto|]).
    apply elem_of_nil in Hid. destruct Hid.
  - apply (space_step_well_formed s s' e Hstep IH).
Qed.

End SpaceRuns.

(** ** Exclusive use of the links *)

(** C5: in every reachable state of the satellite scenario no two
    running transmissions share a link, and [_transmitting_links] is
    exactly the set of links in use.  In every reachable state of the
    convoy at most one transfer runs in the whole topology, and
    [_transfer_in_progress] is clear only when none runs.  The convoy
    does not always serve the first eligible link in declaration order:
    the state in which V3 is back online, V2 is full and V1 holds one
    bundle is reachable, and in the tick that follows, once the range
    states are updated, no transfer runs, V3 is online, V1-V2 is not
    eligible (V2 is full), V2-V3 is eligible and is the first eligible
    link in declaration order, and the forwarding step nevertheless
    takes the bundle out of V1 and starts the transfer V1-V2, leaving
    V2 as it was. *)
Theorem transmissions_exclusive_not_in_order {World : Type} (cos : float -> float) :
  (forall s : SpaceScenario.t World,
     SpaceScenario.reachable cos s ->
     NoDup (SpaceInv.in_flight s)
     /\ forall i, i ∈ SpaceScenario._transmitting_links s <-> i ∈ SpaceInv.in_flight s)
  /\ (forall s : MilitaryScenario.t World,
        MilitaryScenario.reachable s ->
        (length (MilitaryScenario.workers s) <= 1)%nat
        /\ (MilitaryScenario._transfer_in_progress s = false ->
            MilitaryScenario.workers s = []))
  /\ (MilitaryScenario.reachable convoy_unjammed
      /\ exists s1 s2 : MilitaryScenario.t unit,
           MilitaryScenario._update_range_states 50
             (MilitaryScenario.set_road_frame convoy_unjammed
                (MilitaryScenario._road_frame convoy_unjammed + 1)) = Some s1
           /\ MilitaryScenario._process_forwarding s1 = Some s2
           /\ MilitaryScenario.step convoy_unjammed (MilitaryScenario.Tick 50)
              = Some s2
           /\ MilitaryScenario._transfer_in_progress s1 = false
           /\ MilitaryScenario.workers s1 = []
           /\ MilitaryScenario.v3_online s1 = true
           /\ MilitaryInv.spec_eligible s1 MilitaryInv.v1_v2 = false
           /\ MilitaryInv.spec_eligible s1 MilitaryInv.v2_v3 = true
           /\ MilitaryInv.spec_selected s1 = Some MilitaryInv.v2_v3
           /\ MilitaryScenario.workers s2
              = [MilitaryScenario.TransferAnimation
                   (Packet.__init__ "V1" "HQ" Packet.NORMAL "Data-100" "late" 0%float)
                   "V1" "V2" 0]
           /\ MilitaryScenario.vehicles s2 !! "V2"
              = MilitaryScenario.vehicles s1 !! "V2").
Proof.
  split; [|split].
  - intros s Hs. apply (reachable_exclusive cos s Hs).
  - intros s Hs. destruct (military_reachable_inv s Hs) as [_ Hser]. split.
    + destruct Hser as [[_ ->] | [_ [w ->]]]; simpl; lia.
    + intros Hflag.
      destruct Hser as [[_ Hw] | [Hbusy _]]; [exact Hw | congruence].
  - split.
    + apply (military_run_reachable convoy_unjammed_events MilitaryScenario.__init__).
      * apply (bool_decide_eq_true_1
                 (Forall MilitaryScenario.possible convoy_unjammed_events)).
        vm_compute. reflexivity.
      * vm_compute. reflexivity.
      * apply MilitaryScenario.reachable_init.
    + eexists. eexists.
      split; [vm_compute; reflexivity|].
      repeat split; vm_compute; reflexivity.
Qed.

Lemma transmissions_exclusive_not_in_order_witness :
  NoDup (SpaceInv.in_flight (space_demo false))
  /\ (length (MilitaryScenario.workers convoy_jammed) <= 1)%nat
  /\ MilitaryScenario.workers convoy_jammed = [].
Proof.
  assert (Hjam : MilitaryScenario.reachable convoy_jammed).
  { apply (military_run_reachable convoy_jam_events MilitaryScenario.__init__).
    - apply (bool_decide_eq_true_1 (Forall MilitaryScenario.possible convoy_jam_events)).
      vm_compute. reflexivity.
    - vm_compute. reflexivity.
    - apply MilitaryScenario.reachable_init. }
  split; [|split].
  - apply (transmissions_exclusive_not_in_order (World := unit) cos_demo).
    apply (space_run_reachable cos_demo (space_demo_events false)
             SpaceScenario.__init__).
    + vm_compute. reflexivity.
    + apply SpaceScenario.reachable_init.
  - apply (transmissions_exclusive_not_in_order (World := unit) cos_demo).
    exact Hjam.
  - apply (proj1 (proj2 (transmissions_exclusive_not_in_order (World := unit)
                           cos_demo))
             convoy_jammed Hjam).
    vm_compute. reflexivity.
Defined.

(** Where the destination has room the code and the tie-break agree:
    with one bundle at V1 and nothing else buffered, V1-V2 is the first
    eligible link and the one served. *)
Example convoy_first_link_served :
  let s := default MilitaryScenario.__init__
             (MilitaryScenario.action_send_packet
                (MilitaryScenario.__init__ (World := unit)) "a" 0%float) in
  MilitaryInv.spec_selected s = Some MilitaryInv.v1_v2
  /\ (MilitaryScenario.workers <$> MilitaryScenario._process_forwarding s)
     = Some [MilitaryScenario.TransferAnimation
               (Packet.__init__ "V1" "HQ" Packet.NORMAL "Data-0" "a" 0%float)
               "V1" "V2" 0].
Proof. vm_compute. split; reflexivity. Qed.

Example space_demo_in_flight : SpaceInv.in_flight (space_demo false) = [0; 1].
Proof. vm_compute. reflexivity. Qed.

(** ** Backpressure *)

(** C3, at the input where the convoy breaks it: V3 is jammed, the
    buffer of V2 holds 100 packets and is full, V1 holds one packet and
    no transfer runs.  This state is reachable.  The forwarding step
    takes the packet out of V1 and starts a transfer to V2; when the
    transfer ends V2 is as full as before and the packet is in no
    buffer. *)
Theorem convoy_forwards_into_full_buffer :
  MilitaryScenario.reachable convoy_jammed
  /\ (Buffer.is_full <$> (Node.buffer <$> MilitaryScenario.vehicles convoy_jammed !! "V2"))
     = Some true
  /\ (Node.buffer_size <$> MilitaryScenario.vehicles convoy_jammed !! "V1") = Some 1
  /\ MilitaryScenario._transfer_in_progress convoy_jammed = false
  /\ exists s' s'',
       MilitaryScenario._process_forwarding convoy_jammed = Some s'
       /\ (Node.buffer_size <$> MilitaryScenario.vehicles s' !! "V1") = Some 0
       /\ MilitaryScenario.workers s'
          = [MilitaryScenario.TransferAnimation
               (Packet.__init__ "V1" "HQ" Packet.NORMAL "Data-100" "late" 0%float)
               "V1" "V2" 0]
       /\ MilitaryScenario.step s' (MilitaryScenario.Finish 0 true) = Some s''
       /\ MilitaryScenario.workers s'' = []
       /\ (Node.buffer_size <$> MilitaryScenario.vehicles s'' !! "V1") = Some 0
       /\ MilitaryScenario.vehicles s'' !! "V2"
          = MilitaryScenario.vehicles convoy_jammed !! "V2".
Proof.
  split; [|split; [|split; [|split]]].
  - apply (military_run_reachable convoy_jam_events MilitaryScenario.__init__).
    + apply (bool_decide_eq_true_1 (Forall MilitaryScenario.possible convoy_jam_events)).
      vm_compute. reflexivity.
    + vm_compute. reflexivity.
    + apply MilitaryScenario.reachable_init.
  - vm_compute. reflexivity.
  - vm_compute. reflexivity.
  - vm_compute. reflexivity.
  - eexists. eexists.
    split; [vm_compute; reflexivity|].
    split; [vm_compute; reflexivity|].
    split; [vm_compute; reflexivity|].
    split; [vm_compute; reflexivity|].
    split; [vm_compute; reflexivity|].
    split; vm_compute; reflexivity.
Qed.

(** ** Link visibility *)

(** C4 (as stated) fails in the convoy: from one and the same state,
    with the same tick count and V3 online, the visibility update makes
    the V3-HQ link visible when [random.randint(40, 60)] returns 40 and
    leaves it invisible when it returns 60. *)
Lemma convoy_visibility_depends_on_draw :
  ~ (forall (s1 s2 : MilitaryScenario.t unit),
       MilitaryScenario._update_range_states 40 convoy_tick40 = Some s1 ->
       MilitaryScenario._update_range_states 60 convoy_tick40 = Some s2 ->
       MilitaryScenario._range_states s1 !! "v3_cp"
       = MilitaryScenario._range_states s2 !! "v3_cp").
Proof.
  intros H.
  assert (E :
    MilitaryScenario._range_states
      (default convoy_tick40 (MilitaryScenario._update_range_states 40 convoy_tick40))
      !! "v3_cp"
    = MilitaryScenario._range_states
        (default convoy_tick40 (MilitaryScenario._update_range_states 60 convoy_tick40))
        !! "v3_cp").
  { apply H; vm_compute; reflexivity. }
  vm_compute in E. discriminate.
Qed.

(** Lookups in a map built by a chain of inserts with literal keys. *)
Ltac lookups :=
  repeat first [ rewrite lookup_insert_eq
               | rewrite lookup_insert_ne by done ].

Lemma list_set_in_range {A : Type} (l : list A) (i : nat) (x : A) :
  (i < length l)%nat -> list_set l i x = Some (<[i := x]> l).
Proof. intros H. unfold list_set. rewrite decide_True by exact H. reflexivity. Qed.

(** The loop over the routes never writes [link_visible]. *)
Lemma process_all_link_visible {World : Type} (s s' : SpaceScenario.t World) :
  SpaceScenario._process_all_transmissions s = Some s' ->
  SpaceScenario.link_visible s' = SpaceScenario.link_visible s.
Proof.
  unfold SpaceScenario._process_all_transmissions. intros H.
  destruct (SpaceScenario.routes s) as [rs|]; simpl in H; [|discriminate].
  refine (for_each_invariant
            (fun s0 => SpaceScenario.link_visible s0 = SpaceScenario.link_visible s)
            SpaceScenario.route_step _ rs s s' H eq_refl).
  intros s0 [[[source_id link_idx] target_id] is_visible] s1 Hstep Hs0.
  apply route_step_cases in Hstep.
  destruct Hstep as [-> | [[n [_ ->]] | [_ [_ [n [p [_ [_ ->]]]]]]]]; exact Hs0.
Qed.

(** C4 (as amended): link visibility after a tick is determined by the
    state the tick starts from and, in the convoy, by the integer that
    [random.randint(40, 60)] returns.  Satellite scenario: the vector
    written by a tick is the same for any two states with the same orbit
    phase and the same antenna-outage flag, and it is the vector the tick
    leaves in [link_visible].  Convoy: the three range states after the
    update are the same for any two states with the same V3-online flag,
    the same V3-HQ state and timer, and the same drawn integer; V1-V2 is
    visible and V2-V3 is visible exactly when V3 is online. *)
Theorem visibility_determined {World : Type} (cos : float -> float) :
  (forall s1 s2 : SpaceScenario.t World,
     SpaceScenario._orbit_phase s1 = SpaceScenario._orbit_phase s2 ->
     SpaceScenario.antenna_outage_active s1 = SpaceScenario.antenna_outage_active s2 ->
     length (SpaceScenario.link_visible s1) = 6%nat ->
     length (SpaceScenario.link_visible s2) = 6%nat ->
     exists s1' s2',
       SpaceScenario.update_link_visible cos s1 = Some s1'
       /\ SpaceScenario.update_link_visible cos s2 = Some s2'
       /\ SpaceScenario.link_visible s1' = SpaceScenario.link_visible s2')
  /\ (forall s s' : SpaceScenario.t World,
        SpaceScenario._simulation_tick cos s = Some s' ->
        exists s1, SpaceScenario.update_link_visible cos s = Some s1
          /\ SpaceScenario.link_visible s' = SpaceScenario.link_visible s1)
  /\ (forall (s1 s2 : MilitaryScenario.t World) (randint : Z),
        MilitaryScenario.v3_online s1 = MilitaryScenario.v3_online s2 ->
        MilitaryScenario._range_states s1 !! "v3_cp"
        = MilitaryScenario._range_states s2 !! "v3_cp" ->
        MilitaryScenario._range_timers s1 !! "v3_cp"
        = MilitaryScenario._range_timers s2 !! "v3_cp" ->
        is_Some (MilitaryScenario._range_states s1 !! "v3_cp") ->
        is_Some (MilitaryScenario._range_timers s1 !! "v3_cp") ->
        exists s1' s2',
          MilitaryScenario._update_range_states randint s1 = Some s1'
          /\ MilitaryScenario._update_range_states randint s2 = Some s2'
          /\ MilitaryScenario._range_states s1' !! "v1_v2" = Some true
          /\ MilitaryScenario._range_states s2' !! "v1_v2" = Some true
          /\ MilitaryScenario._range_states s1' !! "v2_v3"
             = Some (MilitaryScenario.v3_online s1)
          /\ MilitaryScenario._range_states s2' !! "v2_v3"
             = Some (MilitaryScenario.v3_online s1)
          /\ MilitaryScenario._range_states s1' !! "v3_cp"
             = MilitaryScenario._range_states s2' !! "v3_cp").
Proof.
  split; [|split].
  - intros s1 s2 Hphase Hout H1 H2.
    destruct s1 as [n1 lv1 ph1 tl1 ip1 ps1 pd1 pp1 ba1 ao1 ws1].
    destruct s2 as [n2 lv2 ph2 tl2 ip2 ps2 pd2 pp2 ba2 ao2 ws2].
    simpl in *. subst ph2 ao2.
    destruct lv1 as [|a0 [|a1 [|a2 [|a3 [|a4 [|a5 [|]]]]]]]; try discriminate.
    destruct lv2 as [|b0 [|b1 [|b2 [|b3 [|b4 [|b5 [|]]]]]]]; try discriminate.
    unfold SpaceScenario.update_link_visible. simpl.
    destruct ao1; simpl;
      (eexists; eexists; split; [reflexivity | split; reflexivity]).
  - intros s s' H. unfold SpaceScenario._simulation_tick in H.
    destruct (SpaceScenario.update_link_visible cos s) as [s1|]; simpl in H;
      [|discriminate].
    exists s1. split; [reflexivity|]. apply process_all_link_visible. exact H.
  - intros s1 s2 randint H3 Hst Htm [st Hs] [timer Ht].
    destruct s1 as [vs1 rf1 tip1 rs1 rt1 ip1 v31 pc1 pd1 ws1].
    destruct s2 as [vs2 rf2 tip2 rs2 rt2 ip2 v32 pc2 pd2 ws2].
    simpl in *. subst v32. rewrite Hs in Hst. rewrite Ht in Htm.
    unfold MilitaryScenario._update_range_states. simpl.
    destruct v31; simpl; rewrite Ht, <- Htm; simpl.
    + rewrite !lookup_insert_eq. simpl. destruct (timer + 1 >? randint).
      * rewrite !lookup_insert_ne by done. rewrite Hs, <- Hst. simpl.
        eexists; eexists. split; [reflexivity|]. split; [reflexivity|]. simpl.
        lookups. auto 10.
      * eexists; eexists. split; [reflexivity|]. split; [reflexivity|]. simpl.
        lookups. rewrite Hs, <- Hst. auto 10.
    + eexists; eexists. split; [reflexivity|]. split; [reflexivity|]. simpl.
      lookups. auto 10.
Qed.

Lemma visibility_determined_witness :
  (exists s1' s2' : SpaceScenario.t unit,
     SpaceScenario.update_link_visible cos_demo SpaceScenario.__init__ = Some s1'
     /\ SpaceScenario.update_link_visible cos_demo space_spammed = Some s2'
     /\ SpaceScenario.link_visible s1' = SpaceScenario.link_visible s2')
  /\ (exists s1' s2' : MilitaryScenario.t unit,
        MilitaryScenario._update_range_states 45 convoy_tick40 = Some s1'
        /\ MilitaryScenario._update_range_states 45
             (MilitaryScenario.action_toggle_pause convoy_tick40) = Some s2'
        /\ MilitaryScenario._range_states s1' !! "v1_v2" = Some true
        /\ MilitaryScenario._range_states s2' !! "v1_v2" = Some true
        /\ MilitaryScenario._range_states s1' !! "v2_v3"
           = Some (MilitaryScenario.v3_online convoy_tick40)
        /\ MilitaryScenario._range_states s2' !! "v2_v3"
           = Some (MilitaryScenario.v3_online convoy_tick40)
        /\ MilitaryScenario._range_states s1' !! "v3_cp"
           = MilitaryScenario._range_states s2' !! "v3_cp").
Proof.
  split.
  - apply (visibility_determined (World := unit) cos_demo);
      vm_compute; reflexivity.
  - apply (visibility_determined (World := unit) cos_demo);
      vm_compute; eauto.
Defined.

(** ** The blackhole attack *)

(** When the button cannot be looked up or its label cannot be set,
    the toggle flips the flag and does nothing else: the [except]
    clause swallows the exception before [buffer.clear()] is reached. *)
Lemma toggle_blackhole_attack_display_failure {World : Type}
    (s : SpaceScenario.t World) :
  SpaceScenario.blackhole_active (SpaceScenario.toggle_blackhole_attack false s)
  = negb (SpaceScenario.blackhole_active s)
  /\ SpaceScenario.nodes (SpaceScenario.toggle_blackhole_attack false s)
     = SpaceScenario.nodes s
  /\ SpaceScenario.packets_dropped (SpaceScenario.toggle_blackhole_attack false s)
     = SpaceScenario.packets_dropped s.
Proof. destruct s. simpl. auto. Qed.

(** C6: switching the attack on, with the button looked up and its
    label set without an exception ([ui_ok = true], as when the method
    is called for a press of that button), empties the buffer of
    MO-SAT1 and leaves every other node and the drop counter as they
    were.  While the attack is on, every transmission into MO-SAT1 that
    ends adds exactly 1 to the drop counter and changes no buffer.
    Switching it off, whether the display can be reached or not,
    changes neither a buffer nor a counter. *)
Theorem blackhole_attack {World : Type} (cos : float -> float)
    (s : SpaceScenario.t World) :
  (SpaceScenario.blackhole_active s = false ->
   is_Some (SpaceScenario.nodes s !! "MO-SAT1") ->
   SpaceScenario.blackhole_active (SpaceScenario.toggle_blackhole_attack true s)
   = true
   /\ (exists n,
         SpaceScenario.nodes (SpaceScenario.toggle_blackhole_attack true s)
           !! "MO-SAT1" = Some n
         /\ Buffer._queue (Node.buffer n) = [])
   /\ (forall id, id <> "MO-SAT1" ->
         SpaceScenario.nodes (SpaceScenario.toggle_blackhole_attack true s) !! id
         = SpaceScenario.nodes s !! id)
   /\ SpaceScenario.packets_dropped (SpaceScenario.toggle_blackhole_attack true s)
      = SpaceScenario.packets_dropped s)
  /\ (SpaceScenario.blackhole_active s = true ->
      forall (i : nat) (w : SpaceScenario.Transmission),
        SpaceScenario.workers s !! i = Some w ->
        SpaceScenario.tx_target_id w = "MO-SAT1" ->
        is_Some (SpaceScenario.nodes s !! "MO-SAT1") ->
        exists s',
          SpaceScenario.step cos s (SpaceScenario.Finish i) = Some s'
          /\ SpaceScenario.packets_dropped s' = SpaceScenario.packets_dropped s + 1
          /\ SpaceScenario.nodes s' = SpaceScenario.nodes s
          /\ SpaceScenario.blackhole_active s' = true)
  /\ (SpaceScenario.blackhole_active s = true ->
      forall ui_ok : bool,
        SpaceScenario.blackhole_active
          (SpaceScenario.toggle_blackhole_attack ui_ok s) = false
        /\ SpaceScenario.nodes (SpaceScenario.toggle_blackhole_attack ui_ok s)
           = SpaceScenario.nodes s
        /\ SpaceScenario.packets_dropped
             (SpaceScenario.toggle_blackhole_attack ui_ok s)
           = SpaceScenario.packets_dropped s
        /\ SpaceScenario.packets_delivered
             (SpaceScenario.toggle_blackhole_attack ui_ok s)
           = SpaceScenario.packets_delivered s).
Proof.
  split; [|split].
  - intros Hoff [n Hn]. unfold SpaceScenario.toggle_blackhole_attack.
    destruct s as [ns lv ph tl ip ps pd pp ba ao ws]. simpl in *. subst ba.
    simpl. rewrite Hn. simpl. split; [reflexivity|]. split; [|split].
    + eexists. rewrite lookup_insert_eq. split; reflexivity.
    + intros id Hid. rewrite lookup_insert_ne by congruence. reflexivity.
    + reflexivity.
  - intros Hon i w Hw Htarget [n Hn]. simpl. rewrite Hw. simpl.
    unfold SpaceScenario._animate_transmission_resume. simpl.
    rewrite Htarget, Hn, Hon. simpl.
    eexists. split; [reflexivity|]. simpl. auto.
  - intros Hon ui_ok. unfold SpaceScenario.toggle_blackhole_attack.
    destruct s as [ns lv ph tl ip ps pd pp ba ao ws]. simpl in *. subst ba.
    destruct ui_ok; simpl; auto.
Qed.

Lemma blackhole_attack_witness :
  (exists n,
     SpaceScenario.nodes (SpaceScenario.toggle_blackhole_attack true space_spammed)
       !! "MO-SAT1" = Some n
     /\ Buffer._queue (Node.buffer n) = [])
  /\ (exists s',
        SpaceScenario.step cos_demo (space_demo true) (SpaceScenario.Finish 1)
        = Some s'
        /\ SpaceScenario.packets_dropped s'
           = SpaceScenario.packets_dropped (space_demo true) + 1
        /\ SpaceScenario.nodes s' = SpaceScenario.nodes (space_demo true)
        /\ SpaceScenario.blackhole_active s' = true)
  /\ SpaceScenario.nodes
       (SpaceScenario.toggle_blackhole_attack false
          (SpaceScenario.toggle_blackhole_attack true space_spammed))
     = SpaceScenario.nodes (SpaceScenario.toggle_blackhole_attack true space_spammed).
Proof.
  split; [|split].
  - apply (blackhole_attack cos_demo space_spammed).
    + vm_compute. reflexivity.
    + vm_compute. eauto.
  - apply (proj1 (proj2 (blackhole_attack cos_demo (space_demo true))))
      with (w := SpaceScenario.mk_tx 1 "MA-SAT" "MO-SAT1"
                   (Packet.__init__ "MA" "E" Packet.NORMAL "Data-0" "a" 0%float)).
    + vm_compute. reflexivity.
    + vm_compute. reflexivity.
    + reflexivity.
    + vm_compute. eauto.
  - apply (proj2 (proj2 (blackhole_attack cos_demo
             (SpaceScenario.toggle_blackhole_attack true space_spammed)))).
    vm_compute. reflexivity.
Defined.

Example blackhole_clears_two_packets :
  (Node.buffer_size <$> SpaceScenario.nodes space_spammed !! "MO-SAT1") = Some 2
  /\ (Node.buffer_size
        <$> SpaceScenario.nodes (SpaceScenario.toggle_blackhole_attack true space_spammed)
              !! "MO-SAT1") = Some 0
  /\ SpaceScenario.packets_dropped
       (SpaceScenario.toggle_blackhole_attack true space_spammed) = 0.
Proof. vm_compute. auto. Qed.

(** The same two packets stay buffered, with the attack switched on,
    when the button cannot be reached. *)
Example blackhole_keeps_packets_without_display :
  SpaceScenario.blackhole_active
    (SpaceScenario.toggle_blackhole_attack false space_spammed) = true
  /\ (Node.buffer_size
        <$> SpaceScenario.nodes (SpaceScenario.toggle_blackhole_attack false space_spammed)
              !! "MO-SAT1") = Some 2.
Proof. vm_compute. auto. Qed.

(** ** Injecting a packet at a full source *)

Lemma queue_packet_full {World : Type} (n : Node.t World) (p : Packet.t) :
  Buffer.is_full (Node.buffer n) = true -> Node.queue_packet n p = (false, n).
Proof.
  intros Hfull. unfold Node.queue_packet.
  destruct (negb (Node.is_online n)); [reflexivity|].
  rewrite (enqueue_full _ _ Hfull). destruct n; reflexivity.
Qed.

(** C7 (as amended): sending a packet while the source buffer is full
    adds no packet and leaves every buffer as it was.  In the satellite
    scenario nothing at all changes, the sent counter included.  The
    command returns no value in either scenario. *)
Theorem injection_at_full_source {World : Type} :
  (forall (s : SpaceScenario.t World) (n : Node.t World)
          (fresh_id : string) (now : float),
     SpaceScenario.nodes s !! "MA" = Some n ->
     Buffer.is_full (Node.buffer n) = true ->
     SpaceScenario.action_send_packet s fresh_id now = Some s)
  /\ (forall (s : MilitaryScenario.t World) (v1 : Node.t World)
             (fresh_id : string) (now : float),
        MilitaryScenario.vehicles s !! "V1" = Some v1 ->
        Buffer.is_full (Node.buffer v1) = true ->
        exists s', MilitaryScenario.action_send_packet s fresh_id now = Some s'
          /\ MilitaryScenario.vehicles s' = MilitaryScenario.vehicles s).
Proof.
  split.
  - intros s n fresh_id now Hn Hfull. unfold SpaceScenario.action_send_packet.
    rewrite Hn. simpl. rewrite Hfull. reflexivity.
  - intros s v1 fresh_id now Hv Hfull. unfold MilitaryScenario.action_send_packet.
    rewrite Hv. simpl. rewrite (queue_packet_full v1 _ Hfull).
    eexists. split; [reflexivity|]. simpl. apply insert_id. exact Hv.
Qed.

Lemma injection_at_full_source_witness :
  SpaceScenario.action_send_packet space_mars_full "x" 0%float = Some space_mars_full
  /\ exists s', MilitaryScenario.action_send_packet convoy_v1_full "x" 0%float = Some s'
       /\ MilitaryScenario.vehicles s' = MilitaryScenario.vehicles convoy_v1_full.
Proof.
  split.
  - apply (proj1 (injection_at_full_source (World := unit)))
      with (n := default (Node.__init__ "MA" "Mars" (Buffer.__init__ 5))
                   (SpaceScenario.nodes space_mars_full !! "MA")).
    + vm_compute. reflexivity.
    + vm_compute. reflexivity.
  - apply (proj2 (injection_at_full_source (World := unit)))
      with (v1 := default (Node.__init__ "V1" "Lead Vehicle" Buffer.default)
                    (MilitaryScenario.vehicles convoy_v1_full !! "V1")).
    + vm_compute. reflexivity.
    + vm_compute. reflexivity.
Defined.

(** C7 (as stated) fails in the convoy: with the buffer of V1 full, one
    more send leaves the buffer as it is and still increments
    [packets_created]. *)
Lemma convoy_counts_failed_injection :
  ~ ((Buffer.is_full <$> (Node.buffer <$> MilitaryScenario.vehicles convoy_v1_full !! "V1"))
       = Some true ->
     forall s',
       MilitaryScenario.action_send_packet convoy_v1_full "x" 0%float = Some s' ->
       MilitaryScenario.packets_created s'
       = MilitaryScenario.packets_created convoy_v1_full).
Proof.
  intros H.
  assert (E :
    MilitaryScenario.packets_created
      (default convoy_v1_full
         (MilitaryScenario.action_send_packet convoy_v1_full "x" 0%float))
    = MilitaryScenario.packets_created convoy_v1_full).
  { apply H; vm_compute; reflexivity. }
  vm_compute in E. discriminate.
Qed.
